(** * tiny_jsdelivr: a shallow embedding of the gateway's core

    The development follows the layout of the repository:

    - [Py]: the fragment of the Python runtime the program relies on
      (exceptions, [try]/[except], [assert], [str] and [dict] operations);
    - [General]: [tiny_utils/general.py];
    - [NodeEcosys]: [tiny_utils/node_ecosys.py];
    - [Network]: [tiny_utils/network.py];
    - [TinyJsdelivr]: [tiny_jsdelivr.py].

    Definitions come first, the lemmas and theorems about them follow. *)

From Stdlib Require Import String Ascii List ZArith NArith Bool Lia.
From Stdlib Require Import Permutation Sorted.
Import ListNotations.

Set Warnings "-register-all".

Local Open Scope string_scope.
Local Open Scope list_scope.

(* ================================================================== *)
(** * The Python runtime fragment *)
(* ================================================================== *)

Module Py.

(** Exceptions the program raises or lets through.  [RequestNotValidError]
    is the program's own class ([tiny_utils/network.py]); it carries the
    attributes [status_code], [reason] and [message]. *)
Inductive exn : Type :=
| AssertionError
| KeyError (key : string)
| TypeError
| ValueError (msg : string)
| IndexError
| HTTPError (status_code : Z)
| OSError (msg : string)
| RuntimeWarning (msg : string)
| RequestNotValidError (status_code : Z) (reason message : string)
| OtherException (name : string).

(** The result of evaluating an expression or a block: a value, or a raised
    exception. *)
Inductive outcome (A : Type) : Type :=
| Return (a : A)
| Raise (e : exn).
Arguments Return {A} a.
Arguments Raise {A} e.

Definition bind {A B} (m : outcome A) (k : A -> outcome B) : outcome B :=
  match m with
  | Return a => k a
  | Raise e => Raise e
  end.

(** [try: body  except: pass] followed by [rest]: a body that returns ends
    the function, any exception whatsoever is swallowed and control goes on
    with [rest]. *)
Definition try_except_pass {A} (body rest : outcome A) : outcome A :=
  match body with
  | Return a => Return a
  | Raise _ => rest
  end.

(** [assert b] *)
Definition py_assert (b : bool) : outcome unit :=
  if b then Return tt else Raise AssertionError.

(** ** [str] *)

(** [s.startswith(c)] for a one-character [c]. *)
Definition startswith (s : string) (c : ascii) : bool :=
  match s with
  | String a _ => Ascii.eqb a c
  | EmptyString => false
  end.

(** [s.endswith(c)] for a one-character [c]. *)
Fixpoint endswith (s : string) (c : ascii) : bool :=
  match s with
  | EmptyString => false
  | String a EmptyString => Ascii.eqb a c
  | String _ r => endswith r c
  end.

(** [s.find(c, start)]: the lowest index [>= start] holding [c], or [-1]. *)
Fixpoint find (s : string) (c : ascii) (start : nat) : Z :=
  match s with
  | EmptyString => (-1)%Z
  | String a r =>
      match start with
      | O => if Ascii.eqb a c then 0%Z
             else let i := find r c O in
                  if (i =? -1)%Z then (-1)%Z else (i + 1)%Z
      | S n => let i := find r c n in
               if (i =? -1)%Z then (-1)%Z else (i + 1)%Z
      end
  end.

(** [s[n:]] *)
Fixpoint drop (n : nat) (s : string) : string :=
  match n, s with
  | O, _ => s
  | S _, EmptyString => EmptyString
  | S m, String _ r => drop m r
  end.

(** [s[:n]] *)
Fixpoint take (n : nat) (s : string) : string :=
  match n, s with
  | O, _ => EmptyString
  | S _, EmptyString => EmptyString
  | S m, String a r => String a (take m r)
  end.

(** [s[start:stop]] for non-negative bounds; [stop = None] is Python's
    [s[start:None]], the slice up to the end. *)
Definition slice (s : string) (start : nat) (stop : option nat) : string :=
  match stop with
  | None => drop start s
  | Some e => drop start (take e s)
  end.

(** [s.count(c)] for a one-character [c]. *)
Fixpoint count (s : string) (c : ascii) : nat :=
  match s with
  | EmptyString => O
  | String a r => if Ascii.eqb a c then S (count r c) else count r c
  end.

(** [s.split(c)] for a one-character separator [c]. *)
Fixpoint split (s : string) (c : ascii) : list string :=
  match s with
  | EmptyString => [EmptyString]
  | String a r =>
      if Ascii.eqb a c then EmptyString :: split r c
      else match split r c with
           | [] => [String a EmptyString]
           | w :: ws => String a w :: ws
           end
  end.

(** [not s]: the empty string is falsy. *)
Definition str_is_empty (s : string) : bool :=
  match s with EmptyString => true | _ => false end.

(** [s1 < s2] on [str]: lexicographic on code units. *)
Definition str_lt (s1 s2 : string) : bool := String.ltb s1 s2.

(** ** [dict]: insertion-ordered, looked up by key *)

Definition dict (V : Type) : Type := list (string * V).

(** [d.get(k)], with [None] for an absent key. *)
Fixpoint dict_get {V} (d : dict V) (k : string) : option V :=
  match d with
  | [] => None
  | (k', v) :: r => if String.eqb k' k then Some v else dict_get r k
  end.

(** [k in d] *)
Definition dict_contains {V} (d : dict V) (k : string) : bool :=
  match dict_get d k with Some _ => true | None => false end.

(** [d[k]], raising [KeyError] for an absent key. *)
Definition dict_getitem {V} (d : dict V) (k : string) : outcome V :=
  match dict_get d k with
  | Some v => Return v
  | None => Raise (KeyError k)
  end.

(** [d.keys()] and [d.values()], in iteration order. *)
Definition dict_keys {V} (d : dict V) : list string := map fst d.
Definition dict_values {V} (d : dict V) : list V := map snd d.

(** ** [list] *)

(** [l[i]], raising [IndexError] out of range. *)
Definition list_getitem {A} (l : list A) (i : nat) : outcome A :=
  match nth_error l i with
  | Some a => Return a
  | None => Raise IndexError
  end.

(** [sum(...)] over non-negative integers. *)
Definition py_sum (l : list N) : N := fold_left N.add l 0%N.

(** [[x for x in l if test(x)]] where the test may raise: the elements are
    tested in order and the first exception ends the comprehension. *)
Fixpoint list_filter {A} (test : A -> outcome bool) (l : list A)
  : outcome (list A) :=
  match l with
  | [] => Return []
  | x :: r =>
      bind (test x) (fun b =>
      bind (list_filter test r) (fun r' =>
      Return (if b then x :: r' else r')))
  end.

(** ** [functools.cmp_to_key], [sorted], [heapq.nsmallest] *)

(** The key objects [cmp_to_key(mycmp)] builds compare with
    [mycmp(self.obj, other.obj) < 0]; sorting only ever uses [<]. *)
Definition cmp_to_key {A} (mycmp : A -> A -> outcome Z) (x y : A)
  : outcome bool :=
  bind (mycmp x y) (fun c => Return (c <? 0)%Z).

(** [sorted(l, key=...)]: a stable sort driven by the keys' [<]; an
    exception raised by a comparison ends the sort. *)
Fixpoint insert_sorted {A} (lt : A -> A -> outcome bool) (x : A) (l : list A)
  : outcome (list A) :=
  match l with
  | [] => Return [x]
  | y :: r =>
      bind (lt y x) (fun b =>
      if b then bind (insert_sorted lt x r) (fun r' => Return (y :: r'))
      else Return (x :: y :: r))
  end.

Fixpoint sorted {A} (lt : A -> A -> outcome bool) (l : list A)
  : outcome (list A) :=
  match l with
  | [] => Return []
  | x :: r => bind (sorted lt r) (insert_sorted lt x)
  end.

(** [heapq.nsmallest(n, l, key=...)], by its documented meaning
    [sorted(l, key=...)[:n]]. *)
Definition nsmallest {A} (n : nat) (l : list A) (lt : A -> A -> outcome bool)
  : outcome (list A) :=
  bind (sorted lt l) (fun s => Return (firstn n s)).

(** [d[k] = v]: an existing key keeps its place, a new key goes last. *)
Fixpoint dict_setitem {V} (d : dict V) (k : string) (v : V) : dict V :=
  match d with
  | [] => [(k, v)]
  | (k', v') :: r =>
      if String.eqb k' k then (k', v) :: r
      else (k', v') :: dict_setitem r k v
  end.

(** [d.get(k, default)] *)
Definition dict_get_default {V} (d : dict V) (k : string) (default : V) : V :=
  match dict_get d k with
  | Some v => v
  | None => default
  end.

End Py.

Export Py.

Declare Scope py_scope.
Delimit Scope py_scope with py.
Notation "x <- m ;; k" := (Py.bind m (fun x => k))
  (at level 100, m at next level, right associativity) : py_scope.
Notation "m ;;; k" := (Py.bind m (fun _ => k))
  (at level 100, right associativity) : py_scope.

Local Open Scope py_scope.

(* ================================================================== *)
(** * [tiny_utils/general.py] *)
(* ================================================================== *)

Module General.

(** [PurePosixPathThatMightBeDir]: the path text it was built from, and the
    flag captured at construction time. *)
Record PurePosixPathThatMightBeDir : Type := {
  path_text : string;
  _is_dir : bool
}.

Definition PurePosixPathThatMightBeDir_init (path : string)
  : PurePosixPathThatMightBeDir :=
  {| path_text := path; _is_dir := endswith path "/" |}.

Definition is_dir (p : PurePosixPathThatMightBeDir) : bool := _is_dir p.

(** [PurePosixPath.is_absolute]: a POSIX path is absolute when it starts
    with the separator. *)
Definition is_absolute (p : PurePosixPathThatMightBeDir) : bool :=
  startswith (path_text p) "/".

(** What a path of the cache folder denotes: a regular file with its size in
    bytes ([os.path.isfile], [os.path.getsize]) or a directory with its
    entries in [os.listdir] order.  A path is identified with the node it
    leads to. *)
Inductive entry : Type :=
| EFile (size : N)
| EDir (children : list (string * entry)).

(** [get_entry_size] and [get_folder_size] call each other; the recursion
    descends through the directory tree. *)
Fixpoint get_entry_size (path : entry) : N :=
  match path with
  | EFile size => size
  | EDir children =>
      py_sum ((fix sizes (l : list (string * entry)) : list N :=
              match l with
              | [] => []
              | (_, f) :: r => get_entry_size f :: sizes r
              end) children)
  end.

Definition get_folder_size (children : list (string * entry)) : N :=
  py_sum (map (fun f => get_entry_size (snd f)) children).

Definition isdir (path : entry) : bool :=
  match path with EDir _ => true | EFile _ => false end.

(** [reverse_cmp(cmp)]: the comparison [revcmp]. *)
Definition reverse_cmp {T} (cmp : T -> T -> outcome Z) (x y : T)
  : outcome Z :=
  c <- cmp y x ;; Return (- c)%Z.

End General.

(* ================================================================== *)
(** * [tiny_utils/node_ecosys.py] *)
(* ================================================================== *)

Module NodeEcosys.

Record _DistObjectJson : Type := { tarball : string }.
Record _VersionValueJson : Type := { dist : _DistObjectJson }.

(** [ValidRegistryJson]: the two keys of the registry document the program
    reads, each an insertion-ordered [dict]. *)
Record ValidRegistryJson : Type := {
  dist_tags : dict string;
  versions : dict _VersionValueJson
}.

(** A decoded JSON document, as [json.load] returns it. *)
Inductive json : Type :=
| JNull
| JBool (b : bool)
| JNumber (literal : string)
| JString (s : string)
| JArray (items : list json)
| JObject (members : dict json).

(** [v[k]] for a [str] key [k]: only a [dict] can be subscripted by a
    string; lists and strings want integer indices and the other values are
    not subscriptable at all ([TypeError]). *)
Definition getitem (v : json) (k : string) : outcome json :=
  match v with
  | JObject members => dict_getitem members k
  | _ => Raise TypeError
  end.

(** [assert isinstance(res, str)], handing back the string. *)
Definition assert_isinstance_str (res : json) : outcome string :=
  match res with
  | JString s => Return s
  | _ => Raise AssertionError
  end.

Definition find_entry_file_from_package_json (package_json : json)
  : outcome (option string) :=
  try_except_pass
    (res <- getitem package_json "jsdelivr" ;;
     s <- assert_isinstance_str res ;;
     Return (Some s))
  (try_except_pass
    (exports <- getitem package_json "exports" ;;
     dot <- getitem exports "." ;;
     res <- getitem dot "default" ;;
     s <- assert_isinstance_str res ;;
     Return (Some s))
  (try_except_pass
    (exports <- getitem package_json "exports" ;;
     res <- getitem exports "." ;;
     s <- assert_isinstance_str res ;;
     Return (Some s))
  (try_except_pass
    (res <- getitem package_json "main" ;;
     s <- assert_isinstance_str res ;;
     Return (Some s))
  (Return None)))).

(** The [nodesemver] package is a dependency, not part of the repository:
    the program is embedded over its interface.  Every call may raise. *)
Class NodeSemver : Type := {
  SemverRange : Type;
  (** [nodesemver.valid(version, loose)]: the version, or [None]. *)
  nodesemver_valid : string -> bool -> outcome (option string);
  (** [nodesemver.Range(range_str, loose)] *)
  nodesemver_Range : string -> bool -> outcome SemverRange;
  (** [nodesemver.satisfies(version, range)] *)
  nodesemver_satisfies : string -> SemverRange -> outcome bool;
  (** [nodesemver.compare(version1, version2, loose)] *)
  nodesemver_compare : string -> string -> bool -> outcome Z
}.

(** [bool(v)] for an optional string. *)
Definition truthy (v : option string) : bool :=
  match v with
  | Some s => negb (str_is_empty s)
  | None => false
  end.

Section WithNodeSemver.
Context `{NodeSemver}.

Record NodeVersionRange : Type := {
  _range : SemverRange;
  _raw_str : string
}.

(** [NodeVersionRange(range_str, loose)] *)
Definition NodeVersionRange_init (range_str : string) (loose : bool)
  : outcome NodeVersionRange :=
  r <- nodesemver_Range range_str loose ;;
  Return {| _range := r; _raw_str := range_str |}.

(** [version in self] *)
Definition contains (self : NodeVersionRange) (version : string)
  : outcome bool :=
  nodesemver_satisfies version (_range self).

Definition is_valid_version (version_str : string) : bool :=
  match nodesemver_valid version_str false with
  | Return v => truthy v
  | Raise _ => false
  end.

Definition semver_cmp (version1 version2 : string) (loose : bool)
  : outcome Z :=
  nodesemver_compare version1 version2 loose.

End WithNodeSemver.

End NodeEcosys.

(* ================================================================== *)
(** * [tiny_utils/network.py] *)
(* ================================================================== *)

Module Network.
Import General.

(** [http.client.responses], restricted to the status codes the program
    raises. *)
Definition responses (status_code : Z) : option string :=
  if (status_code =? 400)%Z then Some "Bad Request"
  else if (status_code =? 404)%Z then Some "Not Found"
  else None.

(** [raise RequestNotValidError(status_code, message)]: the constructor
    rejects codes outside [400, 500) and reads the reason phrase. *)
Definition raise_RequestNotValidError {A} (status_code : Z) (message : string)
  : outcome A :=
  if negb ((400 <=? status_code)%Z && (status_code <? 500)%Z)
  then Raise (ValueError "status_code must be in [400, 500)")
  else match responses status_code with
       | Some reason => Raise (RequestNotValidError status_code reason message)
       | None => Raise (KeyError "status_code")
       end.

Record PathInfo : Type := {
  package_name : string;
  version_spec_str : string;
  obj_absolute_path : option PurePosixPathThatMightBeDir
}.

Definition make (path : string) : outcome PathInfo :=
  py_assert (startswith path "/") ;;;
  (* Find the path of directory or file. *)
  let slash_ind := find path "/" 1 in
  found <- (if (slash_ind =? -1)%Z then Return (None, None)
            else
              let obj_absolute_path :=
                PurePosixPathThatMightBeDir_init
                  (slice path (Z.to_nat slash_ind) None) in
              py_assert (is_absolute obj_absolute_path) ;;;
              Return (Some obj_absolute_path, Some (Z.to_nat slash_ind))) ;;
  let '(obj_absolute_path, slash_ind) := found in
  (* Find the package name and version specification part. *)
  let head := slice path 1 slash_ind in
  parts <- match count head "@" with
           | 0%nat =>
               let package_name := head in
               if str_is_empty package_name
               then raise_RequestNotValidError 400
                      ("package_name is empty, path: '" ++ path ++ "'")
               else Return (package_name, "latest")
           | 1%nat =>
               match split head "@" with
               | [package_name; version_spec_str] =>
                   if str_is_empty package_name
                   then raise_RequestNotValidError 400
                          ("package_name is empty, path: '" ++ path ++ "'")
                   else if str_is_empty version_spec_str
                   then raise_RequestNotValidError 400
                          ("version_spec_str is empty, path: '" ++ path ++ "'")
                   else Return (package_name, version_spec_str)
               | _ => Raise (ValueError "cannot unpack")
               end
           | _ =>
               raise_RequestNotValidError 400
                 ("too many '@'s in name and version part, path: '"
                    ++ path ++ "'")
           end ;;
  let '(package_name, version_spec_str) := parts in
  Return {| package_name := package_name;
            version_spec_str := version_spec_str;
            obj_absolute_path := obj_absolute_path |}.

End Network.

(* ================================================================== *)
(** * [tiny_htmls.py] *)
(* ================================================================== *)

Module TinyHtmls.
Import NodeEcosys Network.

(** The pages are presentation; each is kept as the call that renders it. *)
Inductive page : Type :=
| home_page
| all_versions_page (registry_json : ValidRegistryJson) (path_info : PathInfo)
| versions_page (versions : list string) (registry_json : ValidRegistryJson)
    (path_info : PathInfo)
| dir_page (local_name path : string) (files : list string).

End TinyHtmls.

(* ================================================================== *)
(** * [tiny_jsdelivr.py] *)
(* ================================================================== *)

Module TinyJsdelivr.
Import General NodeEcosys Network.

Definition CONTENT_TYPE_UTF_8_TEXT : string := "text/plain".
Definition CONTENT_TYPE_UTF_8_HTML : string := "text/html".
Definition CONTENT_TYPE_IMAGE_ICO : string := "image/icon".
Definition CACHE_FOLDER : string := "tiny_jsdelivr_cache".
Definition CACHE_FOLDER_SIZE_THRESHOLD : N := (2 ^ 20) * 1.

(** ** [report_cache_folder_size] on a listing of the cache folder *)

(** The warning handed to [logger.warning]: the message is laid out from
    the total and from one line per reported pair, in this order. *)
Record warning : Type := {
  folder_size : N;
  to_report : list (N * string)
}.

Definition compare_size_entry (lhs rhs : N * string) : outcome Z :=
  let '(size1, entry1) := lhs in
  let '(size2, entry2) := rhs in
  py_assert (negb (String.eqb entry1 entry2)) ;;;
  if (size1 <? size2)%N then Return 1%Z
  else if (size2 <? size1)%N then Return (-1)%Z
  else if str_lt entry1 entry2 then Return (-1)%Z
  else if str_lt entry2 entry1 then Return 1%Z
  else Raise AssertionError.

(** The list [ls]: one pair per entry of [os.listdir(CACHE_FOLDER)], its
    size and its name, the name of a directory carrying a trailing
    separator. *)
Definition size_entry_pairs (listing : list (string * entry))
  : list (N * string) :=
  map (fun '(name, node) =>
         (get_entry_size node,
          if isdir node then (name ++ "/")%string else name))
      listing.

(** The body of [report_cache_folder_size] once the folder has been listed:
    [None] when it returns without logging. *)
Definition cache_folder_report (listing : list (string * entry))
  : outcome (option warning) :=
  let ls := size_entry_pairs listing in
  let folder_size := py_sum (map fst ls) in
  if (folder_size <? CACHE_FOLDER_SIZE_THRESHOLD)%N then Return None
  else
    to_report <- nsmallest 10 ls (cmp_to_key compare_size_entry) ;;
    Return (Some {| folder_size := folder_size; to_report := to_report |}).

(** ** [FeasibleVersionsList] *)

Record FeasibleVersionsList : Type := {
  fv_versions : list string;
  version_is_designated : bool
}.

Section WithNodeSemver.
Context `{NodeSemver}.

Definition make (version_spec_str : string) (registry_json : ValidRegistryJson)
  : outcome FeasibleVersionsList :=
  if String.eqb version_spec_str "dist-tags" then
    Return {| fv_versions := dict_values (dist_tags registry_json);
              version_is_designated := false |}
  else if String.eqb version_spec_str "all" then
    Return {| fv_versions := dict_keys (versions registry_json);
              version_is_designated := false |}
  else if is_valid_version version_spec_str then
    if negb (dict_contains (versions registry_json) version_spec_str)
    then Return {| fv_versions := []; version_is_designated := false |}
    else Return {| fv_versions := [version_spec_str];
                   version_is_designated := true |}
  else
  try_except_pass
    (ver_range <- NodeVersionRange_init version_spec_str false ;;
     vers <- list_filter (fun ver => contains ver_range ver)
               (dict_keys (versions registry_json)) ;;
     Return {| fv_versions := vers; version_is_designated := false |})
  (try_except_pass
    (if negb (dict_contains (dist_tags registry_json) version_spec_str)
     then Return {| fv_versions := []; version_is_designated := false |}
     else
       ver <- dict_getitem (dist_tags registry_json) version_spec_str ;;
       Return {| fv_versions := [ver]; version_is_designated := true |})
  (Return {| fv_versions := []; version_is_designated := false |})).

End WithNodeSemver.

(** ** The world outside the process *)

Record http_response : Type := {
  status_code : Z;
  content : list Byte.byte
}.

(** The file system, the network and the library calls that decode their
    data.  A call that acts on the world returns the world it leaves
    behind, also when it raises. *)
Class Platform : Type := {
  World : Type;
  (** [os.getenv('REGISTRY', 'https://registry.npmjs.org').rstrip('/')] *)
  NPM_REGISTRY_URL_BEGIN : string;
  (** [os.path.exists(path)] *)
  os_path_exists : string -> World -> bool;
  (** [os.listdir(path)] *)
  os_listdir : string -> World -> outcome (list string);
  (** [os.listdir(CACHE_FOLDER)] together with what each entry denotes *)
  cache_listing : World -> outcome (list (string * entry));
  (** [with open(path, 'rb') as f: f.read()] *)
  read_bytes : string -> World -> outcome (list Byte.byte);
  (** [with open(path, 'wb') as f: f.write(content)] *)
  write_bytes : string -> list Byte.byte -> World -> outcome unit * World;
  (** [tar = tarfile.open(tarball); tar.extractall(dest); tar.close()] *)
  tar_extractall : string -> string -> World -> outcome unit * World;
  (** [requests.get(url)] *)
  requests_get : string -> World -> outcome http_response * World;
  (** [r.json()], read as a registry document *)
  response_json : http_response -> outcome ValidRegistryJson;
  (** [json.load] of the file at a path *)
  json_load : string -> World -> outcome json;
  (** [str(p)] for a [PurePosixPath] built from a text *)
  posix_path_str : string -> string;
  (** [mimetypes.guess_file_type(path)] *)
  guess_file_type : string -> option string * option string
}.

(** What the process does to the world, in the order it does it. *)
Inductive io_event : Type :=
| EvExists (path : string) (result : bool)
| EvListdir (path : string)
| EvListCache
| EvRead (path : string)
| EvWrite (path : string)
| EvExtract (tarball dest : string)
| EvGet (url : string)
| EvWarning (w : warning).

Declare Scope io_scope.
Delimit Scope io_scope with io.

Section WithPlatform.
Context `{Platform}.

(** A computation of the process: from a world to an outcome, the world
    left behind and the events performed on the way. *)
Definition io (A : Type) : Type := World -> outcome A * World * list io_event.

Definition io_ret {A} (a : A) : io A := fun w => (Return a, w, []).

Definition io_raise {A} (e : exn) : io A := fun w => (Raise e, w, []).

Definition io_bind {A B} (m : io A) (k : A -> io B) : io B :=
  fun w =>
    match m w with
    | (Return a, w1, evs1) =>
        let '(r, w2, evs2) := k a w1 in (r, w2, evs1 ++ evs2)
    | (Raise e, w1, evs1) => (Raise e, w1, evs1)
    end.

(** A computation that does not touch the world. *)
Definition io_lift {A} (m : outcome A) : io A := fun w => (m, w, []).

(** A call that reads the world. *)
Definition io_read {A} (ev : io_event) (f : World -> outcome A) : io A :=
  fun w => (f w, w, [ev]).

(** A call that acts on the world. *)
Definition io_act {A} (ev : io_event) (f : World -> outcome A * World)
  : io A :=
  fun w => let '(r, w') := f w in (r, w', [ev]).

Definition path_exists (path : string) : io bool :=
  fun w => let b := os_path_exists path w in (Return b, w, [EvExists path b]).

Definition logger_warning (msg : warning) : io unit :=
  fun w => (Return tt, w, [EvWarning msg]).

End WithPlatform.

Notation "x <- m ;; k" := (io_bind m (fun x => k))
  (at level 100, m at next level, right associativity) : io_scope.
Notation "m ;;; k" := (io_bind m (fun _ => k))
  (at level 100, right associativity) : io_scope.

(** ** Responses *)

(** What a response carries: raw bytes, the diagnostic
    [f"Request Not Valid:\n{e}"] kept as the fields of [e] it prints, or a
    page of [tiny_htmls]. *)
Inductive body : Type :=
| Bytes (content : list Byte.byte)
| RequestNotValidText (status_code : Z) (reason message : string)
| Html (p : TinyHtmls.page).

Inductive mime_type : Type :=
| MimeStr (content_type : string)
| MimeTuple (guess : option string * option string).

Record Response : Type := {
  response_body : body;
  response_status : Z;
  response_mime : mime_type
}.

Definition make_response_altered (content : body) (status_code : Z)
  (altered_mime_type : mime_type) : Response :=
  {| response_body := content;
     response_status := status_code;
     response_mime := altered_mime_type |}.

(** [r.raise_for_status()] *)
Definition raise_for_status (r : http_response) : outcome unit :=
  if ((400 <=? status_code r)%Z && (status_code r <? 600)%Z)%bool
  then Raise (HTTPError (status_code r))
  else Return tt.

(** The route [/]. *)
Definition home_page : Response :=
  make_response_altered (Html TinyHtmls.home_page) 200
    (MimeStr CONTENT_TYPE_UTF_8_HTML).

Section Service.
Context `{Platform} `{NodeSemver}.

Definition report_cache_folder_size : io unit :=
  (listing <- io_read EvListCache cache_listing ;;
   report <- io_lift (cache_folder_report listing) ;;
   match report with
   | None => io_ret tt
   | Some msg => logger_warning msg
   end)%io.

Definition get_registry_json (package_name : string) : io ValidRegistryJson :=
  let registry_json_url :=
    (NPM_REGISTRY_URL_BEGIN ++ "/" ++ package_name)%string in
  (r <- io_act (EvGet registry_json_url) (requests_get registry_json_url) ;;
   if (status_code r =? 404)%Z
   then io_lift (raise_RequestNotValidError 404
                   ("package " ++ package_name ++ " not found")%string)
   else
     io_lift (raise_for_status r) ;;;
     io_lift (response_json r))%io.

Definition download_and_unpack_tarball (registry_json : ValidRegistryJson)
  (exact_version local_name : string) : io unit :=
  let flag_new_dir_or_file_cached := false in
  let tarball_path :=
    ("./" ++ CACHE_FOLDER ++ "/" ++ local_name ++ ".tgz")%string in
  (tarball_exists <- path_exists tarball_path ;;
   flag_new_dir_or_file_cached <-
     (if negb tarball_exists then
        (* Download & save. *)
        version <- io_lift (dict_getitem (versions registry_json)
                              exact_version) ;;
        let tarball_url := tarball (dist version) in
        r <- io_act (EvGet tarball_url) (requests_get tarball_url) ;;
        io_lift (raise_for_status r) ;;;
        io_act (EvWrite tarball_path)
          (write_bytes tarball_path (content r)) ;;;
        io_ret true
      else io_ret flag_new_dir_or_file_cached) ;;
   let tarball_unpacked_dir_path :=
     ("./" ++ CACHE_FOLDER ++ "/" ++ local_name)%string in
   dir_exists <- path_exists tarball_unpacked_dir_path ;;
   flag_new_dir_or_file_cached <-
     (if negb dir_exists then
        (* Decompress. *)
        io_act (EvExtract tarball_path tarball_unpacked_dir_path)
          (tar_extractall tarball_path tarball_unpacked_dir_path) ;;;
        io_ret true
      else io_ret flag_new_dir_or_file_cached) ;;
   if flag_new_dir_or_file_cached : bool
   then report_cache_folder_size
   else io_ret tt)%io.

Definition give_entry_file (path_info : PathInfo) (local_name : string)
  : io Response :=
  let package_json_path :=
    ("./" ++ CACHE_FOLDER ++ "/" ++ local_name
       ++ "/package/package.json")%string in
  (package_json_exists <- path_exists package_json_path ;;
   if negb package_json_exists then
     io_lift (raise_RequestNotValidError 404
                ("Couldn't find the `package.json` in "
                   ++ package_name path_info ++ ".")%string)
   else
     package_json <- io_read (EvRead package_json_path)
                       (json_load package_json_path) ;;
     path_from_package <-
       io_lift (find_entry_file_from_package_json package_json) ;;
     match path_from_package with
     | Some entry_path =>
         if str_is_empty entry_path then
           io_lift (raise_RequestNotValidError 404
                      "Error: No entry file path found in package.json")
         else
           let path_from_script :=
             ("./" ++ CACHE_FOLDER ++ "/" ++ local_name ++ "/package/"
                ++ entry_path)%string in
           entry_exists <- path_exists path_from_script ;;
           if negb entry_exists then
             io_lift (raise_RequestNotValidError 404
                        ("Couldn't find the entry file " ++ path_from_script
                           ++ " in " ++ package_name path_info ++ ".")%string)
           else
             content <- io_read (EvRead path_from_script)
                          (read_bytes path_from_script) ;;
             io_ret (make_response_altered (Bytes content) 200
                       (MimeTuple (guess_file_type path_from_script)))
     | None =>
         io_lift (raise_RequestNotValidError 404
                    "Error: No entry file path found in package.json")
     end)%io.

Definition give_directory (path_info : PathInfo)
  (obj_absolute_path : PurePosixPathThatMightBeDir) (local_name : string)
  : io Response :=
  let obj_path := posix_path_str (path_text obj_absolute_path) in
  let path_from_script :=
    ("./" ++ CACHE_FOLDER ++ "/" ++ local_name ++ "/package"
       ++ obj_path)%string in
  (dir_exists <- path_exists path_from_script ;;
   if negb dir_exists then
     io_lift (raise_RequestNotValidError 404
                ("Couldn't find the directory " ++ path_from_script
                   ++ " in " ++ package_name path_info ++ ".")%string)
   else
     files <- io_read (EvListdir path_from_script)
                (os_listdir path_from_script) ;;
     io_ret (make_response_altered
               (Html (TinyHtmls.dir_page local_name obj_path files))
               200 (MimeStr CONTENT_TYPE_UTF_8_HTML)))%io.

Definition give_file (path_info : PathInfo)
  (obj_absolute_path : PurePosixPathThatMightBeDir) (local_name : string)
  : io Response :=
  let path_from_script :=
    ("./" ++ CACHE_FOLDER ++ "/" ++ local_name ++ "/package"
       ++ posix_path_str (path_text obj_absolute_path))%string in
  (file_exists <- path_exists path_from_script ;;
   if negb file_exists then
     io_lift (raise_RequestNotValidError 404
                ("Couldn't find the requested file " ++ path_from_script
                   ++ " in " ++ package_name path_info ++ ".")%string)
   else
     content <- io_read (EvRead path_from_script)
                  (read_bytes path_from_script) ;;
     io_ret (make_response_altered (Bytes content) 200
               (MimeTuple (guess_file_type path_from_script))))%io.

Definition give_file_or_dir (path_info : PathInfo) (local_name : string)
  : io Response :=
  match obj_absolute_path path_info with
  | None => give_entry_file path_info local_name
  | Some p =>
      if is_dir p then give_directory path_info p local_name
      else give_file path_info p local_name
  end.

(** [handle_path].  The content of a listing response is kept as the call
    of [tiny_htmls] that renders the page: what the rendering computes, and
    what it may raise, is not part of this definition. *)
Definition handle_path (abs_path : string) : io Response :=
  if String.eqb abs_path "/favicon.ico" then
    (icon_exists <- path_exists "favicon.ico" ;;
     if negb icon_exists
     then io_raise (RuntimeWarning "favicon.ico not found")
     else
       icon <- io_read (EvRead "favicon.ico") (read_bytes "favicon.ico") ;;
       io_ret (make_response_altered (Bytes icon) 200
                 (MimeStr CONTENT_TYPE_IMAGE_ICO)))%io
  else
    (path_info <- io_lift (Network.make abs_path) ;;
     registry_json <- get_registry_json (package_name path_info) ;;
     feasible_vers <-
       io_lift (make (version_spec_str path_info) registry_json) ;;
     if (length (fv_versions feasible_vers) =? 0)%nat then
       io_ret (make_response_altered
                 (Html (TinyHtmls.all_versions_page registry_json path_info))
                 400 (MimeStr CONTENT_TYPE_UTF_8_HTML))
     else if negb (version_is_designated feasible_vers) then
       io_ret (make_response_altered
                 (Html (TinyHtmls.versions_page (fv_versions feasible_vers)
                          registry_json path_info))
                 200 (MimeStr CONTENT_TYPE_UTF_8_HTML))
     else
       io_lift (py_assert (length (fv_versions feasible_vers) =? 1)%nat) ;;;
       exact_version <- io_lift (list_getitem (fv_versions feasible_vers) 0) ;;
       let local_name :=
         (package_name path_info ++ "-" ++ exact_version)%string in
       download_and_unpack_tarball registry_json exact_version local_name ;;;
       give_file_or_dir path_info local_name)%io.

(** [delivr], the route [/<path:thepath>], whose request path is
    ["/" ++ thepath]: a [RequestNotValidError] becomes a response with its
    status code; every other exception is raised again and leaves the
    handler. *)
Definition delivr (thepath : string) : io Response :=
  fun w =>
    match handle_path ("/" ++ thepath)%string w with
    | (Raise (RequestNotValidError status_code reason message), w', evs) =>
        (Return (make_response_altered
                   (RequestNotValidText status_code reason message)
                   status_code (MimeStr CONTENT_TYPE_UTF_8_TEXT)), w', evs)
    | (Raise e, w', evs) => (Raise e, w', evs)
    | (Return response, w', evs) => (Return response, w', evs)
    end.

End Service.

End TinyJsdelivr.

(* ================================================================== *)
(** * [tiny_htmls.py]: the rows of [_vers_tags_table] *)
(* ================================================================== *)

Module VersTagsTable.
Import General NodeEcosys Network TinyJsdelivr.

(** [{v: [] for v in tag_to_ver.values()}] *)
Definition empty_ver_to_tags (tag_to_ver : dict string) : dict (list string) :=
  fold_left (fun d v => dict_setitem d v []) (dict_values tag_to_ver) [].

(** [for t, v in tag_to_ver.items(): ver_to_tags[v].append(t)] *)
Fixpoint append_tags (items : list (string * string))
  (ver_to_tags : dict (list string)) : outcome (dict (list string)) :=
  match items with
  | [] => Return ver_to_tags
  | (t, v) :: rest =>
      tags <- dict_getitem ver_to_tags v ;;
      append_tags rest (dict_setitem ver_to_tags v (tags ++ [t]))
  end.

(** The reversed mapping, from version to tags. *)
Definition ver_to_tags (tag_to_ver : dict string)
  : outcome (dict (list string)) :=
  append_tags tag_to_ver (empty_ver_to_tags tag_to_ver).

(** [versions.sort(key=cmp_to_key(reverse_cmp(semver_cmp)))] *)
Definition sort_versions `{NodeSemver} (versions : list string)
  : outcome (list string) :=
  sorted (cmp_to_key (reverse_cmp (fun v1 v2 => semver_cmp v1 v2 false)))
    versions.

(** The link of a row:
    ["/{:s}@{:s}{}".format(package_name, ver, obj_absolute_path or '')]. *)
Definition version_href `{Platform} (path_info : PathInfo) (ver : string)
  : string :=
  "/" ++ package_name path_info ++ "@" ++ ver ++
  match obj_absolute_path path_info with
  | Some p => posix_path_str (path_text p)
  | None => EmptyString
  end.

End VersTagsTable.

(* ================================================================== *)
(** * Instances of the interfaces *)
(* ================================================================== *)

(** A small semver library: versions are [MAJOR.MINOR.PATCH] in decimal
    digits, a range is a blank-separated list of comparators
    [>=v], [>v], [<=v], [<v], [=v] that must all hold. *)
Module SimpleSemver.
Import NodeEcosys.

Definition digit (c : ascii) : option N :=
  let n := N_of_ascii c in
  if ((48 <=? n) && (n <=? 57))%N then Some (n - 48)%N else None.

Fixpoint parse_digits (s : string) (acc : N) : option N :=
  match s with
  | EmptyString => Some acc
  | String c r =>
      match digit c with
      | Some d => parse_digits r (10 * acc + d)%N
      | None => None
      end
  end.

Definition parse_number (s : string) : option N :=
  if str_is_empty s then None else parse_digits s 0.

Definition parse_version (s : string) : option (N * N * N) :=
  match split s "." with
  | [a; b; c] =>
      match parse_number a, parse_number b, parse_number c with
      | Some x, Some y, Some z => Some (x, y, z)
      | _, _, _ => None
      end
  | _ => None
  end.

Definition compare_version (v w : N * N * N) : comparison :=
  let '(a, b, c) := v in
  let '(x, y, z) := w in
  match (a ?= x)%N with
  | Eq => match (b ?= y)%N with
          | Eq => (c ?= z)%N
          | o => o
          end
  | o => o
  end.

Inductive operator : Type := GE | GT | LE | LT | EQ.

Definition comparator : Type := (operator * (N * N * N))%type.

Definition parse_comparator (s : string) : option comparator :=
  match s with
  | String ">" (String "=" v) => option_map (pair GE) (parse_version v)
  | String "<" (String "=" v) => option_map (pair LE) (parse_version v)
  | String ">" v => option_map (pair GT) (parse_version v)
  | String "<" v => option_map (pair LT) (parse_version v)
  | String "=" v => option_map (pair EQ) (parse_version v)
  | _ => None
  end.

Fixpoint parse_comparators (l : list string) : option (list comparator) :=
  match l with
  | [] => Some []
  | s :: r =>
      match parse_comparator s, parse_comparators r with
      | Some c, Some cs => Some (c :: cs)
      | _, _ => None
      end
  end.

Definition test (v : N * N * N) (c : comparator) : bool :=
  match fst c, compare_version v (snd c) with
  | GE, Lt => false
  | GE, _ => true
  | GT, Gt => true
  | GT, _ => false
  | LE, Gt => false
  | LE, _ => true
  | LT, Lt => true
  | LT, _ => false
  | EQ, Eq => true
  | EQ, _ => false
  end.

#[export] Instance simple_semver : NodeSemver := {|
  SemverRange := list comparator;
  nodesemver_valid version _ :=
    Return (match parse_version version with
            | Some _ => Some version
            | None => None
            end);
  nodesemver_Range range_str _ :=
    match parse_comparators (split range_str " ") with
    | Some cs => Return cs
    | None => Raise (ValueError "Invalid range")
    end;
  nodesemver_satisfies version range :=
    match parse_version version with
    | Some v => Return (forallb (test v) range)
    | None => Raise (ValueError "Invalid Version")
    end;
  nodesemver_compare version1 version2 _ :=
    match parse_version version1, parse_version version2 with
    | Some v, Some w =>
        Return (match compare_version v w with
                | Lt => (-1)%Z
                | Eq => 0%Z
                | Gt => 1%Z
                end)
    | _, _ => Raise (ValueError "Invalid Version")
    end
|}.

End SimpleSemver.

(** A world held in memory: the paths that exist, the listing of the cache
    folder, and one registry document that every request is answered with. *)
Module MemoryPlatform.
Import General NodeEcosys TinyJsdelivr.

Record memory : Type := {
  existing : list string;
  cache : list (string * entry)
}.

Definition exists_in (path : string) (w : memory) : bool :=
  existsb (String.eqb path) (existing w).

Definition create (path : string) (w : memory) : memory :=
  {| existing := path :: existing w; cache := cache w |}.

Definition memory_platform (served : ValidRegistryJson) : Platform := {|
  World := memory;
  NPM_REGISTRY_URL_BEGIN := "https://registry.npmjs.org";
  os_path_exists := exists_in;
  os_listdir _ _ := Return [];
  cache_listing w := Return (cache w);
  read_bytes path w :=
    if exists_in path w then Return [] else Raise (OSError "No such file");
  write_bytes path _ w := (Return tt, create path w);
  tar_extractall tarball dest w :=
    if exists_in tarball w then (Return tt, create dest w)
    else (Raise (OSError "No such file"), w);
  requests_get _ w := (Return {| status_code := 200; content := [] |}, w);
  response_json _ := Return served;
  json_load _ _ := Return (JObject []);
  posix_path_str text := text;
  guess_file_type _ := (None, None)
|}.

Definition empty_memory : memory := {| existing := []; cache := [] |}.

End MemoryPlatform.

(* ================================================================== *)
(** * Vocabulary of the statements *)
(* ================================================================== *)

(** The definitions below are not part of the program: they say, in the
    words of the design, what the program is compared with. *)

Module Spec.
Import General NodeEcosys Network TinyJsdelivr.

(** ** Resolution *)

(** The pure reading of a test that may raise: it holds when the call
    returns [True]. *)
Definition holds {A} (test : A -> outcome bool) (x : A) : bool :=
  match test x with Return true => true | _ => false end.

(** A single designated version, and an undesignated list of versions. *)
Definition designated (ver : string) : FeasibleVersionsList :=
  {| fv_versions := [ver]; version_is_designated := true |}.

Definition listing (vers : list string) : FeasibleVersionsList :=
  {| fv_versions := vers; version_is_designated := false |}.

(** The dist-tag reading of a specifier. *)
Definition dist_tag_lookup (R : ValidRegistryJson) (s : string)
  : FeasibleVersionsList :=
  match dict_get (dist_tags R) s with
  | Some ver => designated ver
  | None => listing []
  end.

(** ** Request paths *)

(** The text before the first occurrence of a marker (the whole text when
    there is none), and the text after it (when there is one). *)
Fixpoint before (c : ascii) (s : string) : string :=
  match s with
  | EmptyString => EmptyString
  | String a r => if Ascii.eqb a c then EmptyString else String a (before c r)
  end.

Fixpoint after (c : ascii) (s : string) : option string :=
  match s with
  | EmptyString => None
  | String a r => if Ascii.eqb a c then Some r else after c r
  end.

(** The segment of a request path between position 1 and the first
    subsequent separator, or the end of the path. *)
Definition name_and_version (path : string) : string :=
  before "/" (drop 1 path).

(** The object path: the first subsequent separator and all that follows. *)
Definition object_path (path : string) : option string :=
  option_map (String "/") (after "/" (drop 1 path)).

(** The three ways a segment is malformed: an empty package-name side, a
    marker with an empty version-specifier side, more than one marker. *)
Definition malformed (segment : string) : Prop :=
  before "@" segment = EmptyString \/
  after "@" segment = Some EmptyString \/
  (2 <= count segment "@")%nat.

(** What a well-formed path parses to. *)
Definition parsed (path : string) : PathInfo :=
  let segment := name_and_version path in
  {| package_name := before "@" segment;
     version_spec_str := match after "@" segment with
                         | Some spec => spec
                         | None => "latest"
                         end;
     obj_absolute_path :=
       option_map PurePosixPathThatMightBeDir_init (object_path path) |}.

(** A malformed-request error: a [RequestNotValidError], whose status code
    lies in the 4xx range. *)
Definition malformed_request {A} (r : outcome A) : Prop :=
  exists status_code reason message,
    r = Raise (RequestNotValidError status_code reason message) /\
    (400 <= status_code < 500)%Z.

(** ** Entry files *)

(** The value found by following field names from a document, when every
    step goes through an object that has the field. *)
Definition field (v : json) (k : string) : option json :=
  match v with
  | JObject members => dict_get members k
  | _ => None
  end.

Fixpoint field_path (v : json) (ks : list string) : option json :=
  match ks with
  | [] => Some v
  | k :: ks' =>
      match field v k with
      | Some v' => field_path v' ks'
      | None => None
      end
  end.

(** The first of a list of candidates that exists and is a string. *)
Fixpoint first_string (candidates : list (option json)) : option string :=
  match candidates with
  | [] => None
  | Some (JString s) :: _ => Some s
  | _ :: rest => first_string rest
  end.

(** The four places an entry file is looked for, in order. *)
Definition entry_file_candidates (package_json : json) : list (option json) :=
  [ field_path package_json ["jsdelivr"];
    field_path package_json ["exports"; "."; "default"];
    field_path package_json ["exports"; "."];
    field_path package_json ["main"] ].

(** ** The cache folder *)

(** The name an entry is displayed under: a directory carries a trailing
    separator. *)
Definition display_name (e : string * entry) : string :=
  match snd e with
  | EDir _ => (fst e ++ "/")%string
  | EFile _ => fst e
  end.

(** An entry with its recursively computed size. *)
Definition sized (e : string * entry) : N * string :=
  (get_entry_size (snd e), display_name e).

(** The sum of the sizes of the top-level entries. *)
Definition total_size (listing : list (string * entry)) : N :=
  fold_right (fun e acc => (get_entry_size (snd e) + acc)%N) 0%N listing.

(** Largest first; among equal sizes, ascending displayed name. *)
Definition precedes (a b : N * string) : Prop :=
  (fst b < fst a)%N \/
  (fst a = fst b /\ String.ltb (snd a) (snd b) = true).

(** A directory listing names each entry once, and no name holds the
    separator. *)
Definition well_formed_listing (listing : list (string * entry)) : Prop :=
  NoDup (map fst listing) /\
  Forall (fun name => count name "/" = 0%nat) (map fst listing).

(** ** The world *)

(** What the program takes for granted of the file system: a write that
    returns leaves the file in place; an extraction that returns leaves the
    destination in place, as unpacking an archive with at least one member
    does, and removes nothing. *)
Class PlatformLaws `{Platform} : Prop := {
  write_bytes_creates :
    forall path data w w',
      write_bytes path data w = (Return tt, w') ->
      os_path_exists path w' = true;
  tar_extractall_creates :
    forall tarball dest w w',
      tar_extractall tarball dest w = (Return tt, w') ->
      os_path_exists dest w' = true;
  tar_extractall_keeps :
    forall tarball dest w w' path,
      tar_extractall tarball dest w = (Return tt, w') ->
      os_path_exists path w = true ->
      os_path_exists path w' = true
}.

(** The two paths of a cache entry. *)
Definition tarball_path_of (local_name : string) : string :=
  "./" ++ CACHE_FOLDER ++ "/" ++ local_name ++ ".tgz".

Definition unpacked_dir_path_of (local_name : string) : string :=
  "./" ++ CACHE_FOLDER ++ "/" ++ local_name.

(** Events of a download: the request and the write of the tarball. *)
Definition is_download (ev : io_event) : bool :=
  match ev with EvGet _ | EvWrite _ => true | _ => false end.

Definition is_extraction (ev : io_event) : bool :=
  match ev with EvExtract _ _ => true | _ => false end.

(** A run that ends in a client-fault response: a response is returned and
    its status lies in the 4xx range. *)
Definition client_fault `{Platform}
  (run : outcome Response * World * list io_event) : Prop :=
  exists response w evs,
    run = (Return response, w, evs) /\
    (400 <= response_status response < 500)%Z.

(** A run that ends in a server error: an exception leaves the handler. *)
Definition server_error `{Platform}
  (run : outcome Response * World * list io_event) : Prop :=
  exists e w evs, run = (Raise e, w, evs).

End Spec.

(** ** Auxiliary definitions of the proofs *)

Module Aux.
Import NodeEcosys.

(** One [try] block of [find_entry_file_from_package_json]: follow the
    fields, insist on a string, return it. *)
Fixpoint lookup_block (v : json) (ks : list string) : outcome (option string) :=
  match ks with
  | [] => s <- assert_isinstance_str v ;; Return (Some s)
  | k :: ks' => v' <- getitem v k ;; lookup_block v' ks'
  end.

End Aux.

(** ** Concrete inputs *)

Module Examples.
Import General NodeEcosys Network TinyJsdelivr MemoryPlatform.

Definition published (url : string) : _VersionValueJson :=
  {| dist := {| tarball := url |} |}.

(** A registry document with four published versions; the tag [next]
    points at a version that is not among them, and one tag is named
    [all]. *)
Definition registry : ValidRegistryJson := {|
  dist_tags := [("latest", "1.5.0"); ("next", "3.0.0"); ("all", "0.9.0")];
  versions :=
    [("0.9.0", published "https://registry.npmjs.org/pkg/-/pkg-0.9.0.tgz");
     ("1.0.0", published "https://registry.npmjs.org/pkg/-/pkg-1.0.0.tgz");
     ("1.5.0", published "https://registry.npmjs.org/pkg/-/pkg-1.5.0.tgz");
     ("2.0.0", published "https://registry.npmjs.org/pkg/-/pkg-2.0.0.tgz")]
|}.

(** The world in which every request for a registry document is answered
    with [registry]. *)
Definition platform : Platform := memory_platform registry.

(** A cache folder with one tarball and its extracted directory. *)
Definition cache_listing_1 : list (string * entry) :=
  [("pkg-1.0.0.tgz", EFile 400000);
   ("pkg-1.0.0",
    EDir [("package",
           EDir [("package.json", EFile 500);
                 ("index.js", EFile 699500)])])].

Definition memory_1 : memory :=
  {| existing := []; cache := cache_listing_1 |}.

End Examples.

(** ** Further vocabulary *)

Module Behaviour.
Import General NodeEcosys Network TinyJsdelivr.

(** A text free of the separator and of the marker, and not empty: what a
    package name or a specifier of a parsed request consists of. *)
Definition clean (s : string) : Prop :=
  s <> EmptyString /\ count s "/" = 0%nat /\ count s "@" = 0%nat.

(** The sizes of the regular files at any depth below an entry. *)
Fixpoint regular_files (e : entry) : list N :=
  match e with
  | EFile size => [size]
  | EDir children =>
      (fix below (l : list (string * entry)) : list N :=
         match l with
         | [] => []
         | (_, f) :: r => regular_files f ++ below r
         end) children
  end.

(** The tags of a version, in the order of the document. *)
Definition tags_of (tag_to_ver : dict string) (ver : string) : list string :=
  map fst (filter (fun tv => String.eqb (snd tv) ver) tag_to_ver).

(** Membership among the versions that carry a tag. *)
Definition tagged (vals : list string) (v : string) : bool :=
  existsb (String.eqb v) vals.

(** A comparison that returns on every two elements of a list, is
    antisymmetric there, and is non-positive only on pairs in order. *)
Definition compares {A} (cmp : A -> A -> outcome Z) (le : A -> A -> Prop)
  (l : list A) : Prop :=
  forall x y, In x l -> In y l ->
    exists c, cmp x y = Return c /\ cmp y x = Return (- c)%Z /\
              ((c <= 0)%Z -> le x y).

(** Events of the size check, and events that put something new into the
    cache. *)
Definition is_size_check (ev : io_event) : bool :=
  match ev with EvListCache => true | _ => false end.

Definition is_new_work (ev : io_event) : bool :=
  match ev with EvWrite _ | EvExtract _ _ => true | _ => false end.

Definition is_request (ev : io_event) : bool :=
  match ev with EvGet _ => true | _ => false end.

(** Every read of a file and every listing of a directory comes right after
    an existence check of the same path that found it. *)
Fixpoint reads_guarded (evs : list io_event) : bool :=
  match evs with
  | [] => true
  | EvExists p true :: EvRead q :: rest =>
      String.eqb p q && reads_guarded rest
  | EvExists p true :: EvListdir q :: rest =>
      String.eqb p q && reads_guarded rest
  | EvRead _ :: _ => false
  | EvListdir _ :: _ => false
  | _ :: rest => reads_guarded rest
  end.

(** An exception that is not the program's own [RequestNotValidError]. *)
Definition foreign (e : exn) : Prop :=
  match e with
  | RequestNotValidError _ _ _ => False
  | _ => True
  end.

Definition raises_foreign {A} (r : outcome A) : Prop :=
  match r with
  | Raise e => foreign e
  | Return _ => True
  end.

(** The calls into the world raise exceptions of their own, never the
    program's [RequestNotValidError]. *)
Class ForeignErrors `{Platform} : Prop := {
  os_listdir_foreign : forall path w, raises_foreign (os_listdir path w);
  cache_listing_foreign : forall w, raises_foreign (cache_listing w);
  read_bytes_foreign : forall path w, raises_foreign (read_bytes path w);
  write_bytes_foreign :
    forall path data w, raises_foreign (fst (write_bytes path data w));
  tar_extractall_foreign :
    forall tarball dest w, raises_foreign (fst (tar_extractall tarball dest w));
  requests_get_foreign : forall url w, raises_foreign (fst (requests_get url w));
  response_json_foreign : forall r, raises_foreign (response_json r);
  json_load_foreign : forall path w, raises_foreign (json_load path w)
}.

(** The path of a file of an extracted package. *)
Definition package_file_path (local_name relative : string) : string :=
  "./" ++ CACHE_FOLDER ++ "/" ++ local_name ++ "/package/" ++ relative.

(** What a run of [handle_path] may end in: a response of status 200 or
    400, a [RequestNotValidError] of status 400 or 404, or an exception
    of another class. *)
Definition expected_outcome (r : outcome Response) : Prop :=
  match r with
  | Return response =>
      response_status response = 200%Z \/ response_status response = 400%Z
  | Raise (RequestNotValidError status_code _ _) =>
      status_code = 400%Z \/ status_code = 404%Z
  | Raise _ => True
  end.

Definition raises_expected {A} (r : outcome A) : Prop :=
  match r with
  | Raise e => expected_outcome (Raise e)
  | Return _ => True
  end.

End Behaviour.

(** ** Further concrete inputs *)

Module MoreExamples.
Import General NodeEcosys Network TinyJsdelivr MemoryPlatform Examples.

(** The in-memory world behind a registry that answers every request with
    the given status. *)
Definition answering_platform (status : Z) : Platform := {|
  World := memory;
  NPM_REGISTRY_URL_BEGIN := "https://registry.npmjs.org";
  os_path_exists := exists_in;
  os_listdir _ _ := Return [];
  cache_listing w := Return (cache w);
  read_bytes path w :=
    if exists_in path w then Return [] else Raise (OSError "No such file");
  write_bytes path _ w := (Return tt, create path w);
  tar_extractall tarball dest w :=
    if exists_in tarball w then (Return tt, create dest w)
    else (Raise (OSError "No such file"), w);
  requests_get _ w := (Return {| status_code := status; content := [] |}, w);
  response_json _ := Return registry;
  json_load _ _ := Return (JObject []);
  posix_path_str text := text;
  guess_file_type _ := (None, None)
|}.

(** The precedence of the four published versions of [registry]. *)
Definition precedence_rank (ver : string) : nat :=
  if String.eqb ver "0.9.0" then 1
  else if String.eqb ver "1.0.0" then 2
  else if String.eqb ver "1.5.0" then 3
  else if String.eqb ver "2.0.0" then 4
  else 0.

Definition precedence_le (v1 v2 : string) : Prop :=
  (precedence_rank v1 <= precedence_rank v2)%nat.

(** A world in which version 1.0.0 of [pkg] is in the cache. *)
Definition memory_cached : memory :=
  {| existing := ["./tiny_jsdelivr_cache/pkg-1.0.0/package/package.json";
                  "./tiny_jsdelivr_cache/pkg-1.0.0";
                  "./tiny_jsdelivr_cache/pkg-1.0.0.tgz"];
     cache := [] |}.

(** The request for the directory [/lib/] of a range of versions. *)
Definition request_lib : PathInfo :=
  {| package_name := "lodash";
     version_spec_str := ">=1.0.0";
     obj_absolute_path :=
       Some {| path_text := "/lib/"; _is_dir := true |} |}.

End MoreExamples.

(** ** The weight of the cache folder *)

Module Weights.
Import General NodeEcosys TinyJsdelivr Spec Behaviour.

(** The bytes below an entry: the sizes of its regular files, at any depth,
    added up. *)
Definition byte_size (e : entry) : N :=
  fold_right N.add 0%N (regular_files e).

(** A top-level entry as the warning lists it: its bytes and the name it is
    displayed under. *)
Definition weighed (e : string * entry) : N * string :=
  (byte_size (snd e), display_name e).

(** The bytes of all top-level entries together. *)
Definition total_bytes (listing : list (string * entry)) : N :=
  fold_right (fun e acc => (byte_size (snd e) + acc)%N) 0%N listing.

(** Largest first; among equal sizes, ascending name of the entry itself,
    without the separator a directory is displayed with. *)
Definition precedes_by_entry_name (a b : string * entry) : Prop :=
  (byte_size (snd b) < byte_size (snd a))%N \/
  (byte_size (snd a) = byte_size (snd b) /\
   String.ltb (fst a) (fst b) = true).

End Weights.

(** ** Inputs at the edges *)

Module EdgeExamples.
Import General NodeEcosys TinyJsdelivr MemoryPlatform Examples.

(** A registry document that publishes a version whose name is not a
    semantic version, and that has a tag named like a range. *)
Definition odd_registry : ValidRegistryJson := {|
  dist_tags := [(">=1.0.0", "1.0.0")];
  versions :=
    [("1.0.0", published "https://registry.npmjs.org/pkg/-/pkg-1.0.0.tgz");
     ("banana", published "https://registry.npmjs.org/pkg/-/pkg-banana.tgz")]
|}.

(** A cache folder whose two entries weigh the same. *)
Definition tie_listing : list (string * entry) :=
  [("pkg-1.0.0",
    EDir [("package", EDir [("index.js", EFile 600000)])]);
   ("pkg-1.0.0.tgz", EFile 600000)].

Definition memory_tie : memory :=
  {| existing := []; cache := tie_listing |}.

End EdgeExamples.

(* ================================================================== *)
(** * Facts about the Python runtime fragment *)
(* ================================================================== *)

Section DictFacts.
Context {V : Type}.

Lemma dict_contains_get (d : dict V) (k : string) :
  dict_contains d k = true -> exists v, dict_get d k = Some v.
Proof.
  unfold dict_contains. destruct (dict_get d k) as [v|]; [eauto | discriminate].
Qed.

Lemma dict_contains_false_get (d : dict V) (k : string) :
  dict_contains d k = false -> dict_get d k = None.
Proof.
  unfold dict_contains. destruct (dict_get d k); [discriminate | reflexivity].
Qed.

Lemma dict_get_in_keys (d : dict V) (k : string) (v : V) :
  dict_get d k = Some v -> In k (dict_keys d).
Proof.
  induction d as [|[k' v'] d IH]; simpl; [discriminate|].
  destruct (String.eqb_spec k' k); auto.
Qed.

Lemma dict_keys_contains (d : dict V) (k : string) :
  In k (dict_keys d) <-> dict_contains d k = true.
Proof.
  unfold dict_contains. induction d as [|[k' v'] d IH]; simpl.
  - split; [tauto | discriminate].
  - destruct (String.eqb_spec k' k) as [->|Hne]; [tauto|].
    rewrite <- IH. split; [intros [?|?]; [contradiction | assumption] | auto].
Qed.

End DictFacts.

Section ListFilterFacts.
Import Spec.
Context {A : Type} (test : A -> outcome bool).

Lemma list_filter_returns (l : list A) :
  (forall x, In x l -> exists b, test x = Return b) ->
  list_filter test l = Return (filter (holds test) l).
Proof.
  induction l as [|x l IH]; intros Hall; simpl; [reflexivity|].
  destruct (Hall x (or_introl eq_refl)) as [b Hb].
  unfold holds at 1. rewrite Hb. simpl.
  rewrite IH by (intros y Hy; apply Hall; right; exact Hy).
  simpl. destruct b; reflexivity.
Qed.

End ListFilterFacts.

(* ================================================================== *)
(** * Version resolution: [FeasibleVersionsList.make] *)
(* ================================================================== *)

Section Resolution.
Import NodeEcosys TinyJsdelivr Spec.
Context `{NodeSemver}.

Lemma make_dist_tag_block (R : ValidRegistryJson) (s : string) :
  try_except_pass
    (if negb (dict_contains (dist_tags R) s)
     then Return (listing [])
     else ver <- dict_getitem (dist_tags R) s ;; Return (designated ver))
    (Return (listing []))
  = Return (dist_tag_lookup R s).
Proof.
  unfold dist_tag_lookup, dict_contains, dict_getitem.
  destruct (dict_get (dist_tags R) s); reflexivity.
Qed.

(** Past the two literals and the exact-version test, [make] is the range
    block followed by the dist-tag block. *)
Lemma make_not_exact (R : ValidRegistryJson) (s : string) :
  s <> "dist-tags" -> s <> "all" -> is_valid_version s = false ->
  make s R =
  try_except_pass
    (ver_range <- NodeVersionRange_init s false ;;
     vers <- list_filter (fun ver => contains ver_range ver)
               (dict_keys (versions R)) ;;
     Return (listing vers))
    (Return (dist_tag_lookup R s)).
Proof.
  intros Hd Ha Hv. unfold make.
  apply String.eqb_neq in Hd. apply String.eqb_neq in Ha.
  rewrite Hd, Ha, Hv. rewrite <- make_dist_tag_block. reflexivity.
Qed.

(** Every branch of [make] returns, and only two of them designate. *)
Lemma make_cases (R : ValidRegistryJson) (s : string) :
  exists fv, make s R = Return fv /\
    (version_is_designated fv = false \/ exists ver, fv = designated ver).
Proof.
  destruct (String.eqb_spec s "dist-tags") as [->|Hd].
  { eexists; split; [reflexivity | left; reflexivity]. }
  destruct (String.eqb_spec s "all") as [->|Ha].
  { eexists; split; [reflexivity | left; reflexivity]. }
  destruct (is_valid_version s) eqn:Hv.
  - unfold make. apply String.eqb_neq in Hd. apply String.eqb_neq in Ha.
    rewrite Hd, Ha, Hv.
    destruct (dict_contains (versions R) s); simpl; eexists; split;
      try reflexivity; [right; eexists; reflexivity | left; reflexivity].
  - rewrite make_not_exact by assumption.
    assert (Htag : version_is_designated (dist_tag_lookup R s) = false \/
                   exists ver, dist_tag_lookup R s = designated ver).
    { unfold dist_tag_lookup. destruct (dict_get (dist_tags R) s); eauto. }
    unfold NodeVersionRange_init.
    destruct (nodesemver_Range s false) as [r|e]; simpl; [|eauto].
    match goal with
    | |- context [list_filter ?t ?l] => destruct (list_filter t l) as [vers|e]
    end; simpl; eauto.
Qed.

(** C6: the specifier ["all"] resolves to every key of [versions], in the
    order of the registry document, and designates nothing; the [dist-tags]
    of the document are never consulted, so a tag named ["all"] is
    shadowed. *)
Theorem make_all (R : ValidRegistryJson) :
  make "all" R = Return (listing (dict_keys (versions R))).
Proof. reflexivity. Qed.

(** C1: an exact version resolves to itself, designated, when it is a key
    of [versions], and to the empty undesignated list when it is not.  The
    two literals are tested before exact versions; the library accepts
    neither as a version. *)
Theorem make_exact_version (R : ValidRegistryJson) (v : string) :
  is_valid_version "dist-tags" = false ->
  is_valid_version "all" = false ->
  is_valid_version v = true ->
  make v R =
  Return (if dict_contains (versions R) v then designated v else listing []).
Proof.
  intros Hd Ha Hv. unfold make.
  destruct (String.eqb_spec v "dist-tags") as [->|_]; [congruence|].
  destruct (String.eqb_spec v "all") as [->|_]; [congruence|].
  rewrite Hv. destruct (dict_contains (versions R) v); reflexivity.
Qed.

(** C2, as the program has it: a specifier that is neither literal nor an
    exact version and that the library accepts as a range resolves to the
    keys of [versions] the range test holds for, in the order of the
    registry document, and never designates, however many keys pass,
    provided the range test returns on every key of [versions]. *)
Theorem make_range (R : ValidRegistryJson) (s : string) (r : SemverRange) :
  s <> "dist-tags" -> s <> "all" -> is_valid_version s = false ->
  nodesemver_Range s false = Return r ->
  (forall ver, In ver (dict_keys (versions R)) ->
               exists b, nodesemver_satisfies ver r = Return b) ->
  make s R =
  Return (listing (filter (holds (fun ver => nodesemver_satisfies ver r))
                     (dict_keys (versions R)))).
Proof.
  intros Hd Ha Hv Hr Hsat. rewrite make_not_exact by assumption.
  unfold NodeVersionRange_init. rewrite Hr. simpl.
  unfold contains. simpl.
  rewrite (list_filter_returns (fun ver => nodesemver_satisfies ver r))
    by exact Hsat.
  reflexivity.
Qed.

(** When the range is built but its test raises on some key, the listing is
    abandoned and the specifier is read as a dist-tag name as well. *)
Lemma make_range_test_raises (R : ValidRegistryJson) (s : string)
  (r : SemverRange) (e : exn) :
  s <> "dist-tags" -> s <> "all" -> is_valid_version s = false ->
  nodesemver_Range s false = Return r ->
  list_filter (fun ver => nodesemver_satisfies ver r)
    (dict_keys (versions R)) = Raise e ->
  make s R = Return (dist_tag_lookup R s).
Proof.
  intros Hd Ha Hv Hr Hraise. rewrite make_not_exact by assumption.
  unfold NodeVersionRange_init. rewrite Hr. simpl.
  unfold contains. simpl. rewrite Hraise. reflexivity.
Qed.

(** C3: [make] returns on every specifier and every registry document,
    whatever the library raises; and when building the range raises, any
    exception at all, the specifier is read as a dist-tag name: the tagged
    version, designated, when the name is a key of [dist-tags], the empty
    undesignated list otherwise. *)
Theorem make_range_failure :
  (forall (R : ValidRegistryJson) (s : string),
      exists fv, make s R = Return fv) /\
  (forall (R : ValidRegistryJson) (s : string) (e : exn),
      s <> "dist-tags" -> s <> "all" -> is_valid_version s = false ->
      nodesemver_Range s false = Raise e ->
      make s R = Return (match dict_get (dist_tags R) s with
                         | Some ver => designated ver
                         | None => listing []
                         end)).
Proof.
  split.
  - intros R s. destruct (make_cases R s) as [fv [Hfv _]]. eauto.
  - intros R s e Hd Ha Hv Hr. rewrite make_not_exact by assumption.
    unfold NodeVersionRange_init. rewrite Hr. reflexivity.
Qed.

(** C10: [make] returns on every input, and a result that designates holds
    exactly one version, so that the handler's [assert] passes and its
    [versions[0]] is that version. *)
Theorem make_designated_singleton (R : ValidRegistryJson) (s : string) :
  exists fv,
    make s R = Return fv /\
    (version_is_designated fv = true ->
     exists ver,
       fv_versions fv = [ver] /\
       py_assert (length (fv_versions fv) =? 1)%nat = Return tt /\
       list_getitem (fv_versions fv) 0 = Return ver).
Proof.
  destruct (make_cases R s) as [fv [Hfv Hshape]].
  exists fv. split; [exact Hfv|]. intros Hdes.
  destruct Hshape as [Hno | [ver ->]]; [congruence|].
  exists ver. repeat split.
Qed.

End Resolution.

(* ================================================================== *)
(** * Request paths: [PathInfo.make] *)
(* ================================================================== *)

Section StrFacts.
Import Spec.

Lemma before_after_some (c : ascii) (s r : string) :
  after c s = Some r -> s = (before c s ++ String c r)%string.
Proof.
  revert r. induction s as [|a s IH]; intros r; simpl; [discriminate|].
  destruct (Ascii.eqb_spec a c) as [->|Hne].
  - intros [= ->]. reflexivity.
  - intros Hr. simpl. f_equal. apply IH. exact Hr.
Qed.

Lemma before_after_none (c : ascii) (s : string) :
  after c s = None -> before c s = s.
Proof.
  induction s as [|a s IH]; simpl; [reflexivity|].
  destruct (Ascii.eqb a c); [discriminate|].
  intros Hr. f_equal. apply IH. exact Hr.
Qed.

Lemma find_from_start (c : ascii) (s : string) :
  find s c 0 = match after c s with
               | Some _ => Z.of_nat (String.length (before c s))
               | None => (-1)%Z
               end.
Proof.
  induction s as [|a s IH]; simpl; [reflexivity|].
  destruct (Ascii.eqb a c); [reflexivity|].
  rewrite IH. destruct (after c s); simpl.
  - destruct (Z.eqb_spec (Z.of_nat (String.length (before c s))) (-1)); lia.
  - reflexivity.
Qed.

Lemma take_length_app (a b : string) :
  take (String.length a) (a ++ b)%string = a.
Proof. induction a as [|x a IH]; simpl; [destruct b|]; congruence. Qed.

Lemma drop_length_app (a b : string) :
  drop (String.length a) (a ++ b)%string = b.
Proof. induction a as [|x a IH]; simpl; [reflexivity | exact IH]. Qed.

Lemma take_all (s : string) : take (String.length s) s = s.
Proof. induction s as [|x s IH]; simpl; congruence. Qed.

Lemma count_after (c : ascii) (s : string) :
  count s c = match after c s with
              | Some r => S (count r c)
              | None => 0%nat
              end.
Proof.
  induction s as [|a s IH]; simpl; [reflexivity|].
  destruct (Ascii.eqb a c); [reflexivity | exact IH].
Qed.

Lemma split_before_after (c : ascii) (s : string) :
  split s c = before c s :: match after c s with
                            | Some r => split r c
                            | None => []
                            end.
Proof.
  induction s as [|a s IH]; simpl; [reflexivity|].
  destruct (Ascii.eqb a c); [reflexivity|].
  rewrite IH. reflexivity.
Qed.

Lemma str_is_empty_true (s : string) : str_is_empty s = true <-> s = EmptyString.
Proof. destruct s; simpl; split; congruence. Qed.

Lemma str_is_empty_false (s : string) : str_is_empty s = false <-> s <> EmptyString.
Proof. destruct s; simpl; split; congruence. Qed.

End StrFacts.

Section PathFacts.
Import General Network Spec.

(** The slices [make] takes are the segment and the object path. *)
Lemma make_slices (path : string) :
  startswith path "/" = true ->
  let slash_ind := find path "/" 1 in
  match object_path path with
  | None =>
      slash_ind = (-1)%Z /\ slice path 1 None = name_and_version path
  | Some obj =>
      slash_ind <> (-1)%Z /\
      slice path (Z.to_nat slash_ind) None = obj /\
      slice path 1 (Some (Z.to_nat slash_ind)) = name_and_version path
  end.
Proof.
  destruct path as [|a tail]; [discriminate|]. intros _.
  unfold object_path, name_and_version. simpl drop.
  cbn [find]. rewrite find_from_start.
  destruct (after "/" tail) as [r|] eqn:Hafter; simpl option_map; cbv zeta.
  - pose proof (before_after_some _ _ _ Hafter) as Htail.
    set (n := String.length (before "/" tail)) in *.
    destruct (Z.eqb_spec (Z.of_nat n) (-1)) as [Hneg|_]; [lia|].
    replace (Z.to_nat (Z.of_nat n + 1)) with (S n) by lia.
    split; [lia|]. unfold slice. simpl.
    split.
    + rewrite Htail at 1. subst n. apply drop_length_app.
    + rewrite Htail at 1. subst n. apply take_length_app.
  - simpl. split; [reflexivity|].
    symmetry. apply before_after_none. exact Hafter.
Qed.

(** The case distinction [make] draws on the segment. *)
Lemma split_no_marker (c : ascii) (s : string) :
  count s c = 0%nat -> split s c = [s] /\ after c s = None.
Proof.
  rewrite count_after, split_before_after.
  destruct (after c s) eqn:Hafter; [discriminate|].
  intros _. rewrite before_after_none by exact Hafter. auto.
Qed.

Lemma segment_cases (segment : string) :
  match count segment "@" with
  | 0%nat => before "@" segment = segment /\ after "@" segment = None
  | 1%nat => exists spec, after "@" segment = Some spec /\
                          split segment "@" = [before "@" segment; spec]
  | _ => (2 <= count segment "@")%nat
  end.
Proof.
  pose proof (count_after "@" segment) as Hc.
  pose proof (split_before_after "@" segment) as Hs.
  destruct (after "@" segment) as [spec|] eqn:Hafter.
  - rewrite Hc. destruct (count spec "@") eqn:Hspec; [|lia].
    exists spec. split; [reflexivity|].
    rewrite Hs. f_equal. apply split_no_marker. exact Hspec.
  - rewrite Hc. split; [apply before_after_none; exact Hafter | reflexivity].
Qed.

End PathFacts.

Section PathParsing.
Import General Network Spec.

Lemma object_path_absolute (path obj : string) :
  object_path path = Some obj ->
  is_absolute (PurePosixPathThatMightBeDir_init obj) = true.
Proof.
  unfold object_path. destruct (after "/" (drop 1 path)); simpl; [|discriminate].
  intros [= <-]. reflexivity.
Qed.

(** Once the segment is cut out, what [make] does with it. *)
Lemma make_on_segment (path segment : string)
  (obj : option PurePosixPathThatMightBeDir) :
  let parts :=
    match count segment "@" with
    | 0%nat =>
        if str_is_empty segment
        then raise_RequestNotValidError 400
               ("package_name is empty, path: '" ++ path ++ "'")
        else Return (segment, "latest")
    | 1%nat =>
        match split segment "@" with
        | [package_name; version_spec_str] =>
            if str_is_empty package_name
            then raise_RequestNotValidError 400
                   ("package_name is empty, path: '" ++ path ++ "'")
            else if str_is_empty version_spec_str
            then raise_RequestNotValidError 400
                   ("version_spec_str is empty, path: '" ++ path ++ "'")
            else Return (package_name, version_spec_str)
        | _ => Raise (ValueError "cannot unpack")
        end
    | _ =>
        raise_RequestNotValidError 400
          ("too many '@'s in name and version part, path: '" ++ path ++ "'")
    end in
  (malformed segment /\
   exists message,
     parts = Raise (RequestNotValidError 400 "Bad Request" message))
  \/
  (~ malformed segment /\
   parts = Return (before "@" segment,
                   match after "@" segment with
                   | Some spec => spec
                   | None => "latest"
                   end)).
Proof.
  cbv zeta. pose proof (segment_cases segment) as Hcases.
  unfold malformed.
  destruct (count segment "@") as [|[|n]] eqn:Hcount.
  - destruct Hcases as [Hbefore Hafter]. rewrite Hbefore, Hafter.
    destruct segment as [|a r]; simpl.
    + left. split; [left; reflexivity | eexists; reflexivity].
    + right. split; [|reflexivity].
      intros [Hb | [Ha | Hn]]; [discriminate | discriminate | lia].
  - destruct Hcases as (spec & Hafter & Hsplit). rewrite Hsplit, Hafter.
    destruct (before "@" segment) as [|a r] eqn:Hbefore; simpl.
    + left. split; [left; reflexivity | eexists; reflexivity].
    + destruct spec as [|b t]; simpl.
      * left. split; [right; left; reflexivity | eexists; reflexivity].
      * right. split; [|reflexivity].
        intros [Hb | [Ha | Hn]]; [discriminate | discriminate | lia].
  - left. split; [right; right; lia | eexists; reflexivity].
Qed.

Lemma make_result (path : string) :
  startswith path "/" = true ->
  (malformed (name_and_version path) /\
   exists message,
     Network.make path = Raise (RequestNotValidError 400 "Bad Request" message))
  \/
  (~ malformed (name_and_version path) /\
   Network.make path = Return (parsed path)).
Proof.
  intros Hstart. pose proof (make_slices path Hstart) as Hslices.
  unfold Network.make, parsed. rewrite Hstart. cbn [py_assert bind].
  cbv zeta in Hslices.
  set (segment := name_and_version path) in *.
  destruct (object_path path) as [obj|] eqn:Hobj.
  - destruct Hslices as (Hind & Hrest & Hhead).
    apply Z.eqb_neq in Hind. rewrite Hind, Hrest.
    rewrite (object_path_absolute _ _ Hobj). cbn [py_assert bind].
    rewrite Hhead.
    destruct (make_on_segment path segment
                (Some (PurePosixPathThatMightBeDir_init obj)))
      as [[Hbad [message Hparts]] | [Hgood Hparts]];
      cbv zeta in Hparts; rewrite Hparts; cbn [bind option_map].
    + left. eauto.
    + right. auto.
  - destruct Hslices as (Hind & Hhead). rewrite Hind, Z.eqb_refl. cbn [bind].
    rewrite Hhead.
    destruct (make_on_segment path segment None)
      as [[Hbad [message Hparts]] | [Hgood Hparts]];
      cbv zeta in Hparts; rewrite Hparts; cbn [bind option_map].
    + left. eauto.
    + right. auto.
Qed.

(** C7: a request path that starts with the separator is refused with a
    malformed-request error, of status 400, exactly when its name-and-version
    segment has an empty package-name side of the marker, or a marker with
    nothing after it, or more than one marker; every other such path parses,
    to the package name, the specifier (["latest"] without a marker) and the
    object path. *)
Theorem make_malformed_iff (path : string) :
  startswith path "/" = true ->
  (malformed_request (Network.make path)
   <-> malformed (name_and_version path)) /\
  (malformed (name_and_version path) ->
   exists message,
     Network.make path =
     Raise (RequestNotValidError 400 "Bad Request" message)) /\
  (~ malformed (name_and_version path) ->
   Network.make path = Return (parsed path)).
Proof.
  intros Hstart.
  destruct (make_result path Hstart)
    as [[Hbad [message Hmake]] | [Hgood Hmake]].
  - split; [|split].
    + split; [intros _; exact Hbad|]. intros _.
      exists 400%Z, "Bad Request", message. split; [exact Hmake | lia].
    + intros _. eauto.
    + intros Hgood. contradiction.
  - split; [|split].
    + split; [|intros Hbad; contradiction].
      intros (status_code & reason & message & Hraise & _). congruence.
    + intros Hbad. contradiction.
    + intros _. exact Hmake.
Qed.

End PathParsing.

(* ================================================================== *)
(** * Entry files: [find_entry_file_from_package_json] *)
(* ================================================================== *)

Section EntryFile.
Import NodeEcosys Spec Aux.

(** Subscripting returns exactly when the field exists. *)
Lemma getitem_field (v : json) (k : string) :
  match field v k with
  | Some v' => getitem v k = Return v'
  | None => exists e, getitem v k = Raise e
  end.
Proof.
  destruct v; simpl; eauto.
  unfold dict_getitem. destruct (dict_get members k); eauto.
Qed.

Lemma lookup_block_candidate (v : json) (ks : list string) :
  match field_path v ks with
  | Some (JString s) => lookup_block v ks = Return (Some s)
  | _ => exists e, lookup_block v ks = Raise e
  end.
Proof.
  revert v. induction ks as [|k ks IH]; intros v; simpl.
  - destruct v; simpl; eauto.
  - pose proof (getitem_field v k) as Hget.
    destruct (field v k) as [v'|].
    + rewrite Hget. simpl. apply IH.
    + destruct Hget as [e ->]. simpl. eauto.
Qed.

Lemma try_block_candidate (v : json) (ks : list string)
  (rest : outcome (option string)) (others : list (option json)) :
  rest = Return (first_string others) ->
  try_except_pass (lookup_block v ks) rest
  = Return (first_string (field_path v ks :: others)).
Proof.
  intros ->. pose proof (lookup_block_candidate v ks) as Hblock. simpl.
  destruct (field_path v ks) as [[| | |s| |]|];
    first [ rewrite Hblock; reflexivity
          | destruct Hblock as [e He]; rewrite He; reflexivity ].
Qed.

(** C8: entry-file derivation returns, and never raises: its result is the
    first value among [jsdelivr], [exports["."]["default"]], [exports["."]]
    and [main], in this order, that exists and is a string, and [None] when
    there is no such value, whatever the shape of the document and of its
    fields. *)
Theorem find_entry_file_first_string (package_json : json) :
  find_entry_file_from_package_json package_json
  = Return (first_string (entry_file_candidates package_json)).
Proof.
  unfold find_entry_file_from_package_json, entry_file_candidates.
  change (try_except_pass (lookup_block package_json ["jsdelivr"])
           (try_except_pass
              (lookup_block package_json ["exports"; "."; "default"])
              (try_except_pass (lookup_block package_json ["exports"; "."])
                 (try_except_pass (lookup_block package_json ["main"])
                    (Return None))))
          = Return (first_string
                      [field_path package_json ["jsdelivr"];
                       field_path package_json ["exports"; "."; "default"];
                       field_path package_json ["exports"; "."];
                       field_path package_json ["main"]])).
  repeat (apply try_block_candidate). reflexivity.
Qed.

End EntryFile.

(* ================================================================== *)
(** * The cache folder: [report_cache_folder_size] *)
(* ================================================================== *)

Section StringOrder.

Lemma ascii_compare_lt_trans (a b c : ascii) :
  Ascii.compare a b = Lt -> Ascii.compare b c = Lt -> Ascii.compare a c = Lt.
Proof.
  unfold Ascii.compare. rewrite !N.compare_lt_iff. lia.
Qed.

Lemma string_compare_lt_trans (s1 s2 s3 : string) :
  String.compare s1 s2 = Lt -> String.compare s2 s3 = Lt ->
  String.compare s1 s3 = Lt.
Proof.
  revert s2 s3. induction s1 as [|a s1 IH]; intros [|b s2] [|c s3]; simpl;
    try congruence.
  destruct (Ascii.compare a b) eqn:Hab; try discriminate;
    destruct (Ascii.compare b c) eqn:Hbc; try discriminate; intros H12 H23.
  - apply Ascii.compare_eq_iff in Hab, Hbc. subst.
    replace (Ascii.compare c c) with Eq
      by (symmetry; unfold Ascii.compare; apply N.compare_refl).
    eapply IH; eassumption.
  - apply Ascii.compare_eq_iff in Hab. subst. rewrite Hbc. reflexivity.
  - apply Ascii.compare_eq_iff in Hbc. subst. rewrite Hab. reflexivity.
  - rewrite (ascii_compare_lt_trans a b c Hab Hbc). reflexivity.
Qed.

Lemma ltb_trans (s1 s2 s3 : string) :
  String.ltb s1 s2 = true -> String.ltb s2 s3 = true ->
  String.ltb s1 s3 = true.
Proof.
  unfold String.ltb. intros H12 H23.
  destruct (String.compare s1 s2) eqn:E12; try discriminate.
  destruct (String.compare s2 s3) eqn:E23; try discriminate.
  rewrite (string_compare_lt_trans _ _ _ E12 E23). reflexivity.
Qed.

Lemma ltb_total (s1 s2 : string) :
  s1 <> s2 -> String.ltb s1 s2 = false -> String.ltb s2 s1 = true.
Proof.
  unfold String.ltb. intros Hne. rewrite (String.compare_antisym s2 s1).
  destruct (String.compare s1 s2) eqn:E; simpl; try congruence.
  apply String.compare_eq_iff in E. contradiction.
Qed.

End StringOrder.

(** Sorting with a comparison that may raise: when every comparison the
    sort can draw returns and agrees with a transitive relation, the sort
    returns a sorted rearrangement. *)
Section SortFacts.
Context {A : Type} (lt : A -> A -> outcome bool).
Context (R : A -> A -> Prop) (comparable : A -> A -> Prop).
Hypothesis R_trans : forall x y z, R x y -> R y z -> R x z.
Hypothesis lt_decides : forall x y, comparable x y ->
  (lt y x = Return true /\ R y x) \/ (lt y x = Return false /\ R x y).

Lemma insert_sorted_spec (x : A) (l : list A) :
  Forall (comparable x) l -> StronglySorted R l ->
  exists l', insert_sorted lt x l = Return l' /\
             Permutation (x :: l) l' /\ StronglySorted R l'.
Proof.
  induction l as [|y l IH]; intros Hcmp Hsorted; simpl.
  - exists [x]. repeat split; auto. constructor; constructor.
  - inversion Hcmp as [|? ? Hxy Hcmp']; subst.
    inversion Hsorted as [|? ? Hsorted' Hy]; subst.
    destruct (lt_decides x y Hxy) as [[-> Ryx] | [-> Rxy]]; simpl.
    + destruct (IH Hcmp' Hsorted') as (l' & -> & Hperm & Hs'). simpl.
      exists (y :: l'). repeat split.
      * rewrite perm_swap. constructor. exact Hperm.
      * constructor; [exact Hs'|].
        eapply Permutation_Forall; [exact Hperm|].
        constructor; assumption.
    + exists (x :: y :: l). repeat split; [reflexivity|].
      constructor; [exact Hsorted|].
      constructor; [exact Rxy|].
      eapply Forall_impl; [|exact Hy]. intros z Hyz. eapply R_trans; eauto.
Qed.

Lemma sorted_spec (l : list A) :
  ForallOrdPairs comparable l ->
  exists l', sorted lt l = Return l' /\
             Permutation l l' /\ StronglySorted R l'.
Proof.
  induction l as [|x l IH]; intros Hpairs; simpl.
  - exists []. repeat split; constructor.
  - inversion Hpairs as [|? ? Hx Hpairs']; subst.
    destruct (IH Hpairs') as (l' & -> & Hperm & Hs'). simpl.
    destruct (insert_sorted_spec x l') as (l'' & Hins & Hperm' & Hs'');
      [eapply Permutation_Forall; eassumption | exact Hs' |].
    exists l''. repeat split; [exact Hins | | exact Hs''].
    rewrite <- Hperm'. constructor. exact Hperm.
Qed.

End SortFacts.

Section CacheReport.
Import General TinyJsdelivr Spec Behaviour Weights.

Lemma precedes_trans (a b c : N * string) :
  precedes a b -> precedes b c -> precedes a c.
Proof.
  unfold precedes. intros [Hab | [Hab Hn]] [Hbc | [Hbc Hm]].
  - left. lia.
  - left. lia.
  - left. lia.
  - right. split; [congruence|]. eapply ltb_trans; eassumption.
Qed.

(** On two pairs with different names the comparison returns, negative for
    the pair that goes first. *)
Lemma compare_size_entry_decides (x y : N * string) :
  snd x <> snd y ->
  (cmp_to_key compare_size_entry y x = Return true /\ precedes y x) \/
  (cmp_to_key compare_size_entry y x = Return false /\ precedes x y).
Proof.
  destruct x as [size2 entry2], y as [size1 entry1]. simpl. intros Hne.
  unfold cmp_to_key, compare_size_entry, precedes, str_lt. simpl.
  assert (Hneb : String.eqb entry1 entry2 = false)
    by (apply String.eqb_neq; congruence).
  rewrite Hneb. simpl.
  destruct (N.ltb_spec size1 size2); simpl; [right; split; [reflexivity | left; lia]|].
  destruct (N.ltb_spec size2 size1); simpl; [left; split; [reflexivity | left; lia]|].
  assert (Heq : size1 = size2) by lia.
  destruct (String.ltb entry1 entry2) eqn:H12; simpl;
    [left; split; [reflexivity | right; auto]|].
  rewrite (ltb_total entry1 entry2) by congruence. simpl.
  right. split; [reflexivity|]. right. split; congruence.
Qed.

Lemma nodup_pairs {B : Type} (f : B -> string) (l : list B) :
  NoDup (map f l) -> ForallOrdPairs (fun x y => f x <> f y) l.
Proof.
  induction l as [|x l IH]; simpl; intros Hnd; [constructor|].
  inversion Hnd as [|? ? Hnotin Hnd']; subst.
  constructor; [|auto].
  apply Forall_forall. intros y Hy Heq. apply Hnotin. rewrite Heq.
  apply in_map. exact Hy.
Qed.

(** The pairs the program builds are the sized entries. *)
Lemma size_entry_pairs_sized (listing : list (string * entry)) :
  size_entry_pairs listing = map sized listing.
Proof.
  unfold size_entry_pairs. apply map_ext. intros [name node].
  unfold sized, display_name. destruct node; reflexivity.
Qed.

Lemma py_sum_from (l : list N) (acc : N) :
  fold_left N.add l acc = (acc + fold_right N.add 0 l)%N.
Proof.
  revert acc. induction l as [|n l IH]; intros acc; simpl; [lia|].
  rewrite IH. lia.
Qed.

Lemma folder_size_total (listing : list (string * entry)) :
  py_sum (map fst (size_entry_pairs listing)) = total_size listing.
Proof.
  unfold py_sum. rewrite py_sum_from, size_entry_pairs_sized. simpl.
  induction listing as [|e listing IH]; simpl; [reflexivity|].
  rewrite IH. reflexivity.
Qed.

(** The size of a directory is the sum of the sizes of its entries, and so
    on downwards. *)
Lemma get_entry_size_dir (children : list (string * entry)) :
  get_entry_size (EDir children) = get_folder_size children.
Proof.
  unfold get_folder_size. simpl. f_equal.
  induction children as [|[name f] children IH]; simpl; congruence.
Qed.

Lemma before_append_separator (name : string) :
  count name "/" = 0%nat -> before "/" (name ++ "/") = name.
Proof.
  induction name as [|a name IH]; simpl; [reflexivity|].
  destruct (Ascii.eqb a "/"); [discriminate|].
  intros Hc. f_equal. apply IH. exact Hc.
Qed.

Lemma before_no_separator (name : string) :
  count name "/" = 0%nat -> before "/" name = name.
Proof.
  induction name as [|a name IH]; simpl; [reflexivity|].
  destruct (Ascii.eqb a "/"); [discriminate|].
  intros Hc. f_equal. apply IH. exact Hc.
Qed.

(** Displayed names are as distinct as the names they come from. *)
Lemma display_names_nodup (listing : list (string * entry)) :
  well_formed_listing listing -> NoDup (map display_name listing).
Proof.
  intros [Hnd Hsep].
  assert (Hname : map fst listing
                  = map (before "/") (map display_name listing)).
  { rewrite map_map. apply map_ext_in. intros [name node] Hin.
    rewrite Forall_forall in Hsep.
    assert (Hc : count name "/" = 0%nat)
      by (apply Hsep; change name with (fst (name, node));
          apply in_map; exact Hin).
    unfold display_name. simpl. destruct node.
    - symmetry. apply before_no_separator. exact Hc.
    - symmetry. apply before_append_separator. exact Hc. }
  rewrite Hname in Hnd. eapply NoDup_map_inv. exact Hnd.
Qed.

(** What [cache_folder_report] returns on a directory listing. *)
Lemma cache_folder_report_spec (listing : list (string * entry)) :
  well_formed_listing listing ->
  ((total_size listing < CACHE_FOLDER_SIZE_THRESHOLD)%N /\
   cache_folder_report listing = Return None)
  \/
  ((CACHE_FOLDER_SIZE_THRESHOLD <= total_size listing)%N /\
   exists reported rest,
     cache_folder_report listing
     = Return (Some {| folder_size := total_size listing;
                       to_report := reported |}) /\
     Permutation (map sized listing) (reported ++ rest) /\
     StronglySorted precedes (reported ++ rest) /\
     length reported = Nat.min 10 (length listing)).
Proof.
  intros Hwf. unfold cache_folder_report. rewrite folder_size_total.
  destruct (N.ltb_spec (total_size listing) CACHE_FOLDER_SIZE_THRESHOLD)
    as [Hlt | Hge]; [left; auto|].
  right. split; [exact Hge|].
  rewrite size_entry_pairs_sized.
  destruct (sorted_spec (cmp_to_key compare_size_entry) precedes
              (fun x y => snd x <> snd y) precedes_trans
              compare_size_entry_decides (map sized listing))
    as (l' & Hsorted & Hperm & Hss).
  { apply nodup_pairs. rewrite map_map.
    apply display_names_nodup. exact Hwf. }
  exists (firstn 10 l'), (skipn 10 l').
  unfold nsmallest. rewrite Hsorted. cbn [bind].
  rewrite (firstn_skipn 10 l'). repeat split; try assumption.
  rewrite length_firstn, <- (Permutation_length Hperm), length_map.
  reflexivity.
Qed.

Lemma sum_app (a b : list N) :
  fold_right N.add 0%N (a ++ b)
  = (fold_right N.add 0 a + fold_right N.add 0 b)%N.
Proof. induction a as [|n a IH]; simpl; [reflexivity | rewrite IH; lia]. Qed.

(** What the program computes for an entry is the bytes below it. *)
Lemma get_entry_size_bytes (e : entry) : get_entry_size e = byte_size e.
Proof.
  unfold byte_size. revert e. fix IH 1. intros [size | children].
  - simpl. lia.
  - simpl. unfold py_sum. rewrite py_sum_from. simpl.
    induction children as [|[name f] children IHchildren]; simpl.
    + reflexivity.
    + rewrite sum_app, <- IHchildren, <- (IH f). reflexivity.
Qed.

Lemma total_size_bytes (listing : list (string * entry)) :
  total_size listing = total_bytes listing.
Proof.
  induction listing as [|e listing IH]; simpl; [reflexivity|].
  rewrite IH, get_entry_size_bytes. reflexivity.
Qed.

Lemma sized_weighed (listing : list (string * entry)) :
  map sized listing = map weighed listing.
Proof.
  apply map_ext. intros e. unfold sized, weighed.
  rewrite get_entry_size_bytes. reflexivity.
Qed.

End CacheReport.

Section CacheReportIO.
Import General TinyJsdelivr Spec Behaviour Weights.
Context `{Platform}.

(** The size check reads the world and leaves it as it was. *)
Lemma report_cache_folder_size_world (w w' : World) (r : outcome unit)
  (evs : list io_event) :
  report_cache_folder_size w = (r, w', evs) -> w' = w.
Proof.
  unfold report_cache_folder_size, io_bind, io_read, io_lift, io_ret,
    logger_warning.
  destruct (cache_listing w) as [listing|e]; [|intros [= _ <- _]; reflexivity].
  destruct (cache_folder_report listing) as [[msg|]|e];
    intros [= _ <- _]; reflexivity.
Qed.

(** The size check neither downloads nor extracts. *)
Lemma report_cache_folder_size_events (w w' : World) (r : outcome unit)
  (evs : list io_event) :
  report_cache_folder_size w = (r, w', evs) ->
  existsb is_download evs = false /\ existsb is_extraction evs = false.
Proof.
  unfold report_cache_folder_size, io_bind, io_read, io_lift, io_ret,
    logger_warning.
  destruct (cache_listing w) as [listing|e]; [|intros [= _ _ <-]; auto].
  destruct (cache_folder_report listing) as [[msg|]|e];
    intros [= _ _ <-]; auto.
Qed.

(** C9, as the program has it: on a listing of the cache folder, the size
    check returns and logs a warning exactly when the bytes of the regular
    files below the top-level entries, at any depth, add up to the threshold
    or more; the warning carries that total and the first ten entries (all
    of them when there are fewer) of the listing arranged by decreasing
    bytes and, among equal bytes, by ascending displayed name, the name of
    a directory being displayed with a trailing separator. *)
Theorem report_cache_folder_size_warning (w : World)
  (listing : list (string * entry)) :
  cache_listing w = Return listing ->
  well_formed_listing listing ->
  exists evs,
    report_cache_folder_size w = (Return tt, w, evs) /\
    ((exists msg, In (EvWarning msg) evs)
     <-> (CACHE_FOLDER_SIZE_THRESHOLD <= total_bytes listing)%N) /\
    (forall msg, In (EvWarning msg) evs ->
       folder_size msg = total_bytes listing /\
       length (to_report msg) = Nat.min 10 (length listing) /\
       exists rest,
         Permutation (map weighed listing) (to_report msg ++ rest) /\
         StronglySorted precedes (to_report msg ++ rest)).
Proof.
  intros Hlisting Hwf.
  rewrite <- total_size_bytes, <- sized_weighed.
  unfold report_cache_folder_size, io_bind, io_read, io_lift, io_ret,
    logger_warning.
  rewrite Hlisting.
  destruct (cache_folder_report_spec listing Hwf)
    as [[Hlt ->] | [Hge (reported & rest & -> & Hperm & Hsorted & Hlen)]].
  - exists [EvListCache]. split; [reflexivity|]. split.
    + split; [|lia]. intros [msg [Hin | []]]. discriminate.
    + intros msg [Hin | []]. discriminate.
  - eexists. split; [reflexivity|]. split.
    + split; [intros _; exact Hge|]. intros _. eexists. right. left.
      reflexivity.
    + intros msg [Hin | [Hin | []]]; [discriminate|].
      injection Hin as <-. simpl. eauto.
Qed.

End CacheReportIO.

(* ================================================================== *)
(** * The tarball cache: [download_and_unpack_tarball] *)
(* ================================================================== *)

(** Case analysis on the innermost call a run is waiting for. *)
Ltac next_call Hrun :=
  match type of Hrun with
  | context [match ?x with _ => _ end] =>
      lazymatch x with
      | context [match _ with _ => _ end] => fail
      | _ => destruct x eqn:?
      end
  end;
  cbn beta iota in Hrun.

(** Tidying up after the case analysis. *)
Ltac tidy_run Hrun :=
  repeat match goal with u : unit |- _ => destruct u end;
  repeat match goal with
         | Hb : negb _ = true |- _ => apply negb_true_iff in Hb
         | Hb : negb _ = false |- _ => apply negb_false_iff in Hb
         end;
  injection Hrun; intros; subst.

Section TarballCache.
Import General NodeEcosys TinyJsdelivr Spec.
Context `{Platform}.

(** A full cache hit: two existence checks and nothing else. *)
Lemma download_cache_hit (R : ValidRegistryJson) (v name : string)
  (w : World) :
  os_path_exists (tarball_path_of name) w = true ->
  os_path_exists (unpacked_dir_path_of name) w = true ->
  download_and_unpack_tarball R v name w
  = (Return tt, w,
     [EvExists (tarball_path_of name) true;
      EvExists (unpacked_dir_path_of name) true]).
Proof.
  intros Ht Hd.
  unfold download_and_unpack_tarball, io_bind, path_exists, io_ret.
  fold (tarball_path_of name). fold (unpacked_dir_path_of name).
  rewrite Ht. cbn [negb]. rewrite Hd. reflexivity.
Qed.

(** A call that returns leaves the tarball and the directory in place. *)
Lemma download_post `{!PlatformLaws} (R : ValidRegistryJson)
  (v name : string) (w0 w1 : World) (evs : list io_event) :
  download_and_unpack_tarball R v name w0 = (Return tt, w1, evs) ->
  os_path_exists (tarball_path_of name) w1 = true /\
  os_path_exists (unpacked_dir_path_of name) w1 = true.
Proof.
  unfold download_and_unpack_tarball, io_bind, path_exists, io_ret, io_act,
    io_lift.
  fold (tarball_path_of name). fold (unpacked_dir_path_of name).
  intros Hrun. cbn beta iota in Hrun.
  repeat (next_call Hrun); try discriminate; tidy_run Hrun;
    repeat match goal with
           | Hr : report_cache_folder_size _ = _ |- _ =>
               apply report_cache_folder_size_world in Hr; subst
           end;
    split;
    eauto using write_bytes_creates, tar_extractall_creates,
      tar_extractall_keeps.
Qed.

(** Whatever a call does, it downloads and extracts only what it found
    absent. *)
Lemma download_only_when_absent (R : ValidRegistryJson) (v name : string)
  (w0 w1 : World) (r : outcome unit) (evs : list io_event) :
  download_and_unpack_tarball R v name w0 = (r, w1, evs) ->
  (existsb is_download evs = true ->
   os_path_exists (tarball_path_of name) w0 = false) /\
  (existsb is_extraction evs = true ->
   In (EvExists (unpacked_dir_path_of name) false) evs).
Proof.
  unfold download_and_unpack_tarball, io_bind, path_exists, io_ret, io_act,
    io_lift.
  fold (tarball_path_of name). fold (unpacked_dir_path_of name).
  intros Hrun. cbn beta iota in Hrun.
  repeat (next_call Hrun); tidy_run Hrun;
    repeat match goal with
           | Hr : report_cache_folder_size _ = _ |- _ =>
               apply report_cache_folder_size_events in Hr;
               destruct Hr as [? ?]
           end;
    (split; intros Hev; [try assumption | ];
     cbn [existsb is_download is_extraction orb app] in Hev;
     repeat match goal with
            | Hb : os_path_exists _ _ = _ |- _ => rewrite Hb in *; clear Hb
            | Hb : existsb _ _ = false |- _ => rewrite Hb in *; clear Hb
            end;
     try discriminate; cbn [In app]; auto 8).
Qed.

(** C4: after a call that returned, a second call for the same cache entry
    returns having done two existence checks and nothing else: no request,
    no write, no extraction, no size check, and the world is as the first
    call left it.  And in any call at all, a download happens only when the
    tarball was absent, an extraction only after the directory was found
    absent. *)
Theorem download_and_unpack_tarball_twice `{!PlatformLaws}
  (R : ValidRegistryJson) (v name : string) (w0 w1 : World)
  (evs1 : list io_event) :
  download_and_unpack_tarball R v name w0 = (Return tt, w1, evs1) ->
  download_and_unpack_tarball R v name w1
  = (Return tt, w1,
     [EvExists (tarball_path_of name) true;
      EvExists (unpacked_dir_path_of name) true]) /\
  (forall (w w' : World) (r : outcome unit) (evs : list io_event),
      download_and_unpack_tarball R v name w = (r, w', evs) ->
      (existsb is_download evs = true ->
       os_path_exists (tarball_path_of name) w = false) /\
      (existsb is_extraction evs = true ->
       In (EvExists (unpacked_dir_path_of name) false) evs)).
Proof.
  intros Hfirst. split.
  - destruct (download_post R v name w0 w1 evs1 Hfirst) as [Ht Hd].
    apply download_cache_hit; assumption.
  - intros w w' r evs. apply download_only_when_absent.
Qed.

(** A version that is missing from [versions] makes the download of an
    uncached tarball raise [KeyError], before any request is sent. *)
Lemma download_missing_version (R : ValidRegistryJson) (v name : string)
  (w : World) :
  dict_get (versions R) v = None ->
  os_path_exists (tarball_path_of name) w = false ->
  download_and_unpack_tarball R v name w
  = (Raise (KeyError v), w, [EvExists (tarball_path_of name) false]).
Proof.
  intros Hmissing Habsent.
  unfold download_and_unpack_tarball, io_bind, path_exists, io_lift,
    dict_getitem.
  fold (tarball_path_of name). rewrite Habsent, Hmissing. reflexivity.
Qed.

End TarballCache.

(* ================================================================== *)
(** * The request handler: [handle_path] and [delivr] *)
(* ================================================================== *)

Section Handler.
Import General NodeEcosys Network TinyJsdelivr Spec.
Context `{Platform} `{NodeSemver}.

(** [delivr] hands on every exception that is not a
    [RequestNotValidError]. *)
Lemma delivr_reraises (thepath : string) (w w' : World) (e : exn)
  (evs : list io_event) :
  handle_path ("/" ++ thepath) w = (Raise e, w', evs) ->
  (forall status_code reason message,
      e <> RequestNotValidError status_code reason message) ->
  delivr thepath w = (Raise e, w', evs).
Proof.
  intros Hrun Hother. unfold delivr. rewrite Hrun.
  destruct e; try reflexivity. exfalso. eapply Hother. reflexivity.
Qed.

(** C5, as the program has it: when a request designates a version that is
    not a key of [versions], as a dist-tag pointing at a missing version
    does, and the tarball of that version is not in the cache, the lookup
    of the version record raises [KeyError]; [delivr] raises it again, so
    the request ends in a server error and not in a client-fault
    response. *)
Theorem delivr_missing_version (thepath : string) (path_info : PathInfo)
  (R : ValidRegistryJson) (ver : string) (w w1 : World)
  (evs1 : list io_event) :
  thepath <> "favicon.ico" ->
  Network.make ("/" ++ thepath) = Return path_info ->
  get_registry_json (package_name path_info) w = (Return R, w1, evs1) ->
  make (version_spec_str path_info) R = Return (designated ver) ->
  dict_get (versions R) ver = None ->
  os_path_exists
    (tarball_path_of (package_name path_info ++ "-" ++ ver)) w1 = false ->
  delivr thepath w
  = (Raise (KeyError ver), w1,
     evs1 ++ [EvExists
                (tarball_path_of (package_name path_info ++ "-" ++ ver))
                false]) /\
  server_error (delivr thepath w) /\
  ~ client_fault (delivr thepath w).
Proof.
  intros Hicon Hparse Hregistry Hmake Hmissing Habsent.
  assert (Hrun : delivr thepath w
                 = (Raise (KeyError ver), w1,
                    evs1 ++ [EvExists
                               (tarball_path_of
                                  (package_name path_info ++ "-" ++ ver))
                               false])).
  { apply delivr_reraises; [|discriminate].
    unfold handle_path.
    destruct (String.eqb_spec ("/" ++ thepath) "/favicon.ico") as [Heq|_].
    { injection Heq as Heq. contradiction. }
    unfold io_bind at 1. unfold io_lift at 1. rewrite Hparse.
    unfold io_bind at 1. rewrite Hregistry.
    unfold io_bind at 1. unfold io_lift at 1. rewrite Hmake.
    cbn [designated fv_versions version_is_designated length Nat.eqb negb].
    unfold io_bind at 1. unfold io_lift at 1. cbn [py_assert].
    unfold io_bind at 1. unfold io_lift at 1. cbn [list_getitem nth_error].
    unfold io_bind at 1.
    rewrite (download_missing_version R ver _ w1 Hmissing Habsent).
    reflexivity. }
  split; [exact Hrun|]. rewrite Hrun. split.
  - do 3 eexists. reflexivity.
  - intros (response & w' & evs & Hreturn & _). discriminate.
Qed.

End Handler.

(* ================================================================== *)
(** * The statements at concrete inputs *)
(* ================================================================== *)

Section Instances.
Import General NodeEcosys Network TinyJsdelivr Spec Behaviour Weights.
Import SimpleSemver MemoryPlatform Examples EdgeExamples.

(** The in-memory world obeys the laws of the file system. *)
Lemma memory_platform_laws (served : ValidRegistryJson) :
  @PlatformLaws (memory_platform served).
Proof.
  constructor; simpl.
  - intros path data w w' [= <-]. unfold exists_in, create. simpl.
    rewrite String.eqb_refl. reflexivity.
  - intros tarball dest w w'. destruct (exists_in tarball w);
      intros [= <-]. unfold exists_in, create. simpl.
    rewrite String.eqb_refl. reflexivity.
  - intros tarball dest w w' path. destruct (exists_in tarball w);
      intros [= <-] Hpath. unfold exists_in, create in *. simpl.
    rewrite Hpath. apply orb_true_r.
Qed.

Lemma make_exact_version_witness :
  @make simple_semver "1.0.0" registry = Return (designated "1.0.0") /\
  @make simple_semver "1.0.1" registry = Return (listing []).
Proof.
  split.
  - exact (@make_exact_version simple_semver registry "1.0.0"
             eq_refl eq_refl eq_refl).
  - exact (@make_exact_version simple_semver registry "1.0.1"
             eq_refl eq_refl eq_refl).
Defined.

Lemma make_range_witness :
  @make simple_semver ">=1.0.0 <2.0.0" registry
  = Return (listing ["1.0.0"; "1.5.0"]) /\
  @make simple_semver ">=2.0.0" registry = Return (listing ["2.0.0"]).
Proof.
  split.
  - apply (@make_range simple_semver registry ">=1.0.0 <2.0.0"
             [(GE, (1, 0, 0)%N); (LT, (2, 0, 0)%N)]);
      [discriminate | discriminate | reflexivity | reflexivity |].
    intros ver Hin. simpl in Hin.
    repeat (destruct Hin as [<- | Hin]; [eexists; reflexivity|]).
    contradiction.
  - apply (@make_range simple_semver registry ">=2.0.0"
             [(GE, (2, 0, 0)%N)]);
      [discriminate | discriminate | reflexivity | reflexivity |].
    intros ver Hin. simpl in Hin.
    repeat (destruct Hin as [<- | Hin]; [eexists; reflexivity|]).
    contradiction.
Defined.

(** C2 as stated fails: on a registry document that publishes a version
    the library cannot read, the range test raises while the versions are
    listed; the listing is abandoned and the specifier is read as a
    dist-tag.  Where such a tag exists the result designates a version;
    where none exists the result is empty, although a version is in
    range. *)
Lemma make_range_counterexample :
  @is_valid_version simple_semver ">=1.0.0" = false /\
  @nodesemver_Range simple_semver ">=1.0.0" false
  = Return [(GE, (1, 0, 0)%N)] /\
  filter (holds (fun ver =>
                   @nodesemver_satisfies simple_semver ver
                     [(GE, (1, 0, 0)%N)]))
    (dict_keys (versions odd_registry)) = ["1.0.0"] /\
  @make simple_semver ">=1.0.0" odd_registry = Return (designated "1.0.0") /\
  @make simple_semver ">=1.0.0" odd_registry
  <> Return (listing
               (filter (holds (fun ver =>
                                 @nodesemver_satisfies simple_semver ver
                                   [(GE, (1, 0, 0)%N)]))
                  (dict_keys (versions odd_registry)))) /\
  @is_valid_version simple_semver ">=0.5.0" = false /\
  @nodesemver_Range simple_semver ">=0.5.0" false
  = Return [(GE, (0, 5, 0)%N)] /\
  filter (holds (fun ver =>
                   @nodesemver_satisfies simple_semver ver
                     [(GE, (0, 5, 0)%N)]))
    (dict_keys (versions odd_registry)) = ["1.0.0"] /\
  @make simple_semver ">=0.5.0" odd_registry = Return (listing []).
Proof.
  repeat split; try reflexivity.
  intros Heq. vm_compute in Heq. discriminate.
Qed.

Lemma make_range_failure_witness :
  @make simple_semver "next" registry = Return (designated "3.0.0") /\
  @make simple_semver "beta" registry = Return (listing []).
Proof.
  split.
  - apply (proj2 (@make_range_failure simple_semver) registry "next"
             (ValueError "Invalid range"));
      [discriminate | discriminate | reflexivity | reflexivity].
  - apply (proj2 (@make_range_failure simple_semver) registry "beta"
             (ValueError "Invalid range"));
      [discriminate | discriminate | reflexivity | reflexivity].
Defined.

Lemma make_designated_singleton_witness :
  exists fv ver,
    @make simple_semver "latest" registry = Return fv /\
    version_is_designated fv = true /\
    fv_versions fv = [ver] /\
    list_getitem (fv_versions fv) 0 = Return ver.
Proof.
  destruct (@make_designated_singleton simple_semver registry "latest")
    as (fv & Hmake & Hsingle).
  assert (Hfv : Return fv = Return (designated "1.5.0"))
    by (rewrite <- Hmake; reflexivity).
  injection Hfv as ->.
  destruct (Hsingle eq_refl) as (ver & Hver & _ & Hitem).
  exists (designated "1.5.0"), ver. auto.
Defined.

Lemma make_malformed_iff_witness :
  malformed_request (Network.make "/left@@right") /\
  Network.make "/lodash@>=1.0.0/lib/"
  = Return {| package_name := "lodash";
              version_spec_str := ">=1.0.0";
              obj_absolute_path :=
                Some {| path_text := "/lib/"; _is_dir := true |} |} /\
  Network.make "/pkg"
  = Return {| package_name := "pkg";
              version_spec_str := "latest";
              obj_absolute_path := None |}.
Proof.
  split; [|split].
  - apply (proj1 (make_malformed_iff "/left@@right" eq_refl)).
    right. right. simpl. lia.
  - apply (proj2 (proj2 (make_malformed_iff "/lodash@>=1.0.0/lib/" eq_refl))).
    intros [Hname | [Hspec | Hcount]];
      [discriminate | discriminate | simpl in Hcount; lia].
  - apply (proj2 (proj2 (make_malformed_iff "/pkg" eq_refl))).
    intros [Hname | [Hspec | Hcount]];
      [discriminate | discriminate | simpl in Hcount; lia].
Defined.

Lemma download_and_unpack_tarball_twice_witness :
  let tarball_path := "./tiny_jsdelivr_cache/pkg-1.0.0.tgz" in
  let dir_path := "./tiny_jsdelivr_cache/pkg-1.0.0" in
  let url := "https://registry.npmjs.org/pkg/-/pkg-1.0.0.tgz" in
  let w1 := {| existing := [dir_path; tarball_path]; cache := [] |} in
  @download_and_unpack_tarball platform registry "1.0.0" "pkg-1.0.0"
    empty_memory
  = (Return tt, w1,
     [EvExists tarball_path false; EvGet url; EvWrite tarball_path;
      EvExists dir_path false; EvExtract tarball_path dir_path;
      EvListCache]) /\
  @download_and_unpack_tarball platform registry "1.0.0" "pkg-1.0.0" w1
  = (Return tt, w1, [EvExists tarball_path true; EvExists dir_path true]).
Proof.
  cbv zeta. split; [reflexivity|].
  refine (proj1 (@download_and_unpack_tarball_twice platform
                   (memory_platform_laws registry) registry "1.0.0"
                   "pkg-1.0.0" empty_memory _ _ _)).
  reflexivity.
Defined.

Lemma delivr_missing_version_witness :
  @delivr platform simple_semver "pkg@next" empty_memory
  = (Raise (KeyError "3.0.0"), empty_memory,
     [EvGet "https://registry.npmjs.org/pkg";
      EvExists "./tiny_jsdelivr_cache/pkg-3.0.0.tgz" false]) /\
  ~ client_fault (@delivr platform simple_semver "pkg@next" empty_memory).
Proof.
  destruct (@delivr_missing_version platform simple_semver "pkg@next"
              {| package_name := "pkg";
                 version_spec_str := "next";
                 obj_absolute_path := None |}
              registry "3.0.0" empty_memory empty_memory
              [EvGet "https://registry.npmjs.org/pkg"])
    as (Hrun & _ & Hnot);
    [discriminate | reflexivity | reflexivity | reflexivity | reflexivity
    | reflexivity |].
  split; [exact Hrun | exact Hnot].
Defined.

(** C5 as stated fails: the tag [next] of the document points at a version
    that is not published; the request that designates it ends in a
    [KeyError] that leaves the handler, not in a client-fault response. *)
Lemma delivr_dangling_tag_counterexample :
  dict_get (dist_tags registry) "next" = Some "3.0.0" /\
  dict_contains (versions registry) "3.0.0" = false /\
  @make simple_semver "next" registry = Return (designated "3.0.0") /\
  @delivr platform simple_semver "pkg@next" empty_memory
  = (Raise (KeyError "3.0.0"), empty_memory,
     [EvGet "https://registry.npmjs.org/pkg";
      EvExists "./tiny_jsdelivr_cache/pkg-3.0.0.tgz" false]) /\
  ~ client_fault (@delivr platform simple_semver "pkg@next" empty_memory).
Proof.
  repeat split; try reflexivity.
  intros (response & w & evs & Hreturn & _).
  vm_compute in Hreturn. discriminate.
Qed.

Lemma report_cache_folder_size_warning_witness :
  exists evs,
    @report_cache_folder_size platform memory_1
    = (Return tt, memory_1, evs) /\
    ((exists msg, In (EvWarning msg) evs)
     <-> (CACHE_FOLDER_SIZE_THRESHOLD <= total_bytes cache_listing_1)%N) /\
    (forall msg, In (EvWarning msg) evs ->
       folder_size msg = total_bytes cache_listing_1 /\
       length (to_report msg) = Nat.min 10 (length cache_listing_1) /\
       exists rest,
         Permutation (map weighed cache_listing_1) (to_report msg ++ rest) /\
         StronglySorted precedes (to_report msg ++ rest)).
Proof.
  apply (@report_cache_folder_size_warning platform memory_1
           cache_listing_1 eq_refl).
  split.
  - repeat constructor; simpl; intuition discriminate.
  - repeat constructor.
Defined.

(** C9 as stated fails: a directory and its tarball that weigh the same
    are listed tarball first, by the names they are displayed under,
    although the name of the directory itself is the smaller one; no
    arrangement of the folder by decreasing size and ascending entry name
    starts the way the warning does. *)
Lemma report_cache_folder_size_tie_counterexample :
  @report_cache_folder_size platform memory_tie
  = (Return tt, memory_tie,
     [EvListCache;
      EvWarning {| folder_size := 1200000;
                   to_report := [(600000%N, "pkg-1.0.0.tgz");
                                 (600000%N, "pkg-1.0.0/")] |}]) /\
  String.ltb "pkg-1.0.0" "pkg-1.0.0.tgz" = true /\
  ~ (exists arranged,
        Permutation tie_listing arranged /\
        StronglySorted precedes_by_entry_name arranged /\
        firstn 10 (map weighed arranged)
        = [(600000%N, "pkg-1.0.0.tgz"); (600000%N, "pkg-1.0.0/")]).
Proof.
  split; [reflexivity|]. split; [reflexivity|].
  intros (arranged & Hperm & Hsorted & Hreport).
  apply Permutation_length_2_inv in Hperm.
  destruct Hperm as [-> | ->].
  - vm_compute in Hreport. discriminate.
  - inversion Hsorted as [|? ? _ Hfirst]; subst.
    inversion Hfirst as [|? ? Hprecedes _]; subst.
    destruct Hprecedes as [Hlt | [_ Hname]].
    + vm_compute in Hlt. discriminate.
    + vm_compute in Hname. discriminate.
Qed.

(** The run behind the witness above: the folder weighs 1100000 bytes, past
    the threshold of 1048576, and the directory is listed before its
    tarball. *)
Example report_cache_folder_size_run :
  @report_cache_folder_size platform memory_1
  = (Return tt, memory_1,
     [EvListCache;
      EvWarning {| folder_size := 1100000;
                   to_report := [(700000%N, "pkg-1.0.0/");
                                 (400000%N, "pkg-1.0.0.tgz")] |}]).
Proof. reflexivity. Qed.

(** A tag named [all] does not stand in the way of the literal. *)
Example make_all_shadows_tag :
  dict_get (dist_tags registry) "all" = Some "0.9.0" /\
  @make simple_semver "all" registry
  = Return (listing ["0.9.0"; "1.0.0"; "1.5.0"; "2.0.0"]).
Proof. split; reflexivity. Qed.

(** An entry file is looked for in the order of the four places. *)
Example find_entry_file_run :
  find_entry_file_from_package_json
    (JObject [("main", JString "index.js");
              ("exports", JObject [(".", JObject
                                           [("default", JString "esm.js")])]);
              ("jsdelivr", JNumber "1")])
  = Return (Some "esm.js").
Proof. reflexivity. Qed.

End Instances.

(* ================================================================== *)
(** * Further properties of the program *)
(* ================================================================== *)

(** ** Request paths *)

Section PathInvariants.
Import General Network Spec Behaviour.

Lemma count_before_same (c : ascii) (s : string) : count (before c s) c = 0%nat.
Proof.
  induction s as [|a s IH]; simpl; [reflexivity|].
  destruct (Ascii.eqb a c) eqn:Hac; simpl; [reflexivity|].
  rewrite Hac. exact IH.
Qed.

Lemma count_before_le (c d : ascii) (s : string) :
  (count (before c s) d <= count s d)%nat.
Proof.
  induction s as [|a s IH]; simpl; [lia|].
  destruct (Ascii.eqb a c); simpl; destruct (Ascii.eqb a d); lia.
Qed.

Lemma count_after_le (c d : ascii) (s r : string) :
  after c s = Some r -> (count r d <= count s d)%nat.
Proof.
  revert r. induction s as [|a s IH]; intros r; simpl; [discriminate|].
  destruct (Ascii.eqb a c).
  - intros [= ->]. destruct (Ascii.eqb a d); lia.
  - intros Hr. specialize (IH r Hr). destruct (Ascii.eqb a d); lia.
Qed.

Lemma startswith_inv (s : string) (c : ascii) :
  startswith s c = true -> exists r, s = String c r.
Proof.
  destruct s as [|a r]; simpl; [discriminate|].
  intros Hac. apply Ascii.eqb_eq in Hac. subst. eauto.
Qed.

(** A path that parses starts with the separator and parses to
    [parsed]. *)
Lemma make_returns_parsed (path : string) (path_info : PathInfo) :
  Network.make path = Return path_info ->
  startswith path "/" = true /\
  ~ malformed (name_and_version path) /\
  path_info = parsed path.
Proof.
  intros Hmake.
  destruct (startswith path "/") eqn:Hstart.
  - destruct (make_result path Hstart)
      as [[_ [message Hraise]] | [Hgood Hparsed]]; [congruence|].
    repeat split; [exact Hgood | congruence].
  - unfold Network.make in Hmake. rewrite Hstart in Hmake. discriminate.
Qed.

Lemma segment_no_separator (path : string) :
  count (name_and_version path) "/" = 0%nat.
Proof. apply count_before_same. Qed.

Lemma parsed_names_clean (path : string) :
  ~ malformed (name_and_version path) ->
  clean (package_name (parsed path)) /\
  clean (version_spec_str (parsed path)).
Proof.
  intros Hgood. unfold parsed, clean. cbn [package_name version_spec_str].
  set (segment := name_and_version path) in *.
  assert (Hsep : count segment "/" = 0%nat) by apply segment_no_separator.
  unfold malformed in Hgood.
  split; [split; [|split]|].
  - intros Hempty. apply Hgood. left. exact Hempty.
  - pose proof (count_before_le "@" "/" segment). lia.
  - apply count_before_same.
  - pose proof (count_after "@" segment) as Hcount.
    destruct (after "@" segment) as [spec|] eqn:Hafter.
    + split; [|split].
      * intros ->. apply Hgood. right. left. reflexivity.
      * pose proof (count_after_le "@" "/" segment spec Hafter). lia.
      * destruct (count spec "@") eqn:Hspec; [reflexivity|].
        exfalso. apply Hgood. right. right. lia.
    + repeat split. discriminate.
Qed.

(** X1: whatever [PathInfo.make] returns has a package name and a
    specifier that are not empty and hold neither the separator nor the
    marker. *)
Theorem make_names_clean (path : string) (path_info : PathInfo) :
  Network.make path = Return path_info ->
  clean (package_name path_info) /\ clean (version_spec_str path_info).
Proof.
  intros Hmake.
  destruct (make_returns_parsed path path_info Hmake) as (_ & Hgood & ->).
  apply parsed_names_clean. exact Hgood.
Qed.

Lemma append_empty (a : string) : (a ++ EmptyString)%string = a.
Proof. induction a as [|x a IH]; simpl; congruence. Qed.

Lemma before_after_split (c : ascii) (s : string) :
  s = (before c s ++ match after c s with
                     | Some r => String c r
                     | None => EmptyString
                     end)%string.
Proof.
  destruct (after c s) as [r|] eqn:Hafter.
  - apply before_after_some. exact Hafter.
  - rewrite before_after_none by exact Hafter.
    symmetry. apply append_empty.
Qed.

Lemma endswith_app (a r : string) (b c : ascii) :
  endswith (a ++ String b r) c = endswith (String b r) c.
Proof.
  induction a as [|x a IH]; [reflexivity|].
  change (endswith (String x (a ++ String b r)) c
          = endswith (String b r) c).
  rewrite <- IH. destruct a; reflexivity.
Qed.

Lemma append_assoc (a b c : string) :
  ((a ++ b) ++ c = a ++ (b ++ c))%string.
Proof. induction a as [|x a IH]; simpl; congruence. Qed.

(** X2: a request path that parses is the separator, the package name,
    the marker and the specifier when one was given (["latest"] stands for
    none), and a remainder.  The remainder is empty when there is no object
    path; otherwise it starts with the separator, and the object path is
    marked as a directory exactly when the remainder, and so the request
    path, ends with the separator. *)
Theorem make_reconstructs (path : string) (path_info : PathInfo) :
  Network.make path = Return path_info ->
  exists remainder,
    ((path = ("/" ++ package_name path_info ++ remainder)%string /\
      version_spec_str path_info = "latest") \/
     path = ("/" ++ package_name path_info ++ "@"
               ++ version_spec_str path_info ++ remainder)%string) /\
    match obj_absolute_path path_info with
    | None => remainder = EmptyString
    | Some p => startswith remainder "/" = true /\
                is_dir p = endswith remainder "/" /\
                is_dir p = endswith path "/"
    end.
Proof.
  intros Hmake.
  destruct (make_returns_parsed path path_info Hmake)
    as (Hstart & _ & ->).
  destruct (startswith_inv path "/" Hstart) as [tail ->].
  unfold parsed, name_and_version, object_path.
  cbn [drop package_name version_spec_str obj_absolute_path].
  set (segment := before "/" tail).
  pose proof (before_after_split "/" tail) as Htail. fold segment in Htail.
  pose proof (before_after_split "@" segment) as Hsegment.
  exists (match after "/" tail with
          | Some r => String "/" r
          | None => EmptyString
          end).
  split.
  - destruct (after "@" segment) as [spec|];
      [right | left; split; [|reflexivity]];
      rewrite Htail at 1; rewrite Hsegment at 1;
      cbn [append]; rewrite ?append_assoc; reflexivity.
  - destruct (after "/" tail) as [r|]; cbn [option_map]; [|reflexivity].
    unfold is_dir, PurePosixPathThatMightBeDir_init. cbn [_is_dir].
    split; [reflexivity|]. split; [reflexivity|].
    rewrite Htail at 1.
    change (String "/" (segment ++ String "/" r))
      with (String "/" segment ++ String "/" r)%string.
    symmetry. apply endswith_app.
Qed.

Lemma count_app (a b : string) (c : ascii) :
  count (a ++ b) c = (count a c + count b c)%nat.
Proof.
  induction a as [|x a IH]; simpl; [reflexivity|].
  destruct (Ascii.eqb x c); simpl; lia.
Qed.

Lemma before_app (c : ascii) (a b : string) :
  count a c = 0%nat -> before c (a ++ b) = (a ++ before c b)%string.
Proof.
  induction a as [|x a IH]; simpl; [reflexivity|].
  destruct (Ascii.eqb x c); [discriminate|].
  intros Hc. f_equal. apply IH. exact Hc.
Qed.

Lemma after_app (c : ascii) (a b : string) :
  count a c = 0%nat -> after c (a ++ b) = after c b.
Proof.
  induction a as [|x a IH]; simpl; [reflexivity|].
  destruct (Ascii.eqb x c); [discriminate|]. exact IH.
Qed.

(** What a path made of a clean name, the marker, a clean specifier and a
    suffix parses to. *)
Lemma make_composed (name spec suffix : string) :
  clean name -> clean spec ->
  suffix = EmptyString \/ startswith suffix "/" = true ->
  Network.make ("/" ++ name ++ "@" ++ spec ++ suffix)
  = Return {| package_name := name;
              version_spec_str := spec;
              obj_absolute_path :=
                if str_is_empty suffix then None
                else Some (PurePosixPathThatMightBeDir_init suffix) |}.
Proof.
  intros (Hname & Hname_sep & Hname_at) (Hspec & Hspec_sep & Hspec_at)
    Hsuffix.
  set (path := ("/" ++ name ++ "@" ++ spec ++ suffix)%string).
  assert (Hsegment : name_and_version path = (name ++ "@" ++ spec)%string).
  { unfold name_and_version, path. cbn [append drop].
    rewrite before_app by exact Hname_sep. cbn [append before Ascii.eqb].
    cbn. rewrite before_app by exact Hspec_sep.
    destruct Hsuffix as [-> | Hsuffix];
      [cbn; rewrite append_empty; reflexivity|].
    destruct (startswith_inv _ _ Hsuffix) as [r ->]. cbn.
    rewrite append_empty. reflexivity. }
  assert (Hobject : object_path path
                    = if str_is_empty suffix then None else Some suffix).
  { unfold object_path, path. cbn [append drop].
    rewrite after_app by exact Hname_sep. cbn.
    rewrite after_app by exact Hspec_sep.
    destruct Hsuffix as [-> | Hsuffix]; [reflexivity|].
    destruct (startswith_inv _ _ Hsuffix) as [r ->]. reflexivity. }
  assert (Hbefore : before "@" (name ++ "@" ++ spec) = name).
  { rewrite before_app by exact Hname_at. cbn. apply append_empty. }
  assert (Hafter : after "@" (name ++ "@" ++ spec) = Some spec).
  { rewrite after_app by exact Hname_at. reflexivity. }
  destruct (make_result path eq_refl)
    as [[Hbad _] | [_ ->]].
  - exfalso. rewrite Hsegment in Hbad.
    destruct Hbad as [Hb | [Ha | Hc]].
    + rewrite Hbefore in Hb. contradiction.
    + rewrite Hafter in Ha. injection Ha as Ha. contradiction.
    + rewrite count_app in Hc. cbn in Hc. lia.
  - unfold parsed. rewrite Hsegment, Hbefore, Hafter, Hobject.
    destruct (str_is_empty suffix); reflexivity.
Qed.

(** X4: a path whose segment starts with the marker, as the path of every
    scoped package does, is refused: parsing raises
    [RequestNotValidError] with status 400 and reason ["Bad Request"]. *)
Theorem make_refuses_scoped (rest : string) :
  exists message,
    Network.make ("/@" ++ rest)
    = Raise (RequestNotValidError 400 "Bad Request" message).
Proof.
  destruct (make_result ("/@" ++ rest) eq_refl)
    as [[_ Hraise] | [Hgood _]].
  - exact Hraise.
  - exfalso. apply Hgood. left. reflexivity.
Qed.

End PathInvariants.

(** ** The version tables of [tiny_htmls] *)

Section VersionLinks.
Import General Network TinyJsdelivr VersTagsTable Spec Behaviour.
Context `{Platform}.

(** X3: the link a version table shows for a version parses back to the
    package of the request it was rendered for and to that version, with
    the object path as the link spells it.  The version is free of the
    separator and of the marker, and the spelling of an object path keeps
    its leading separator. *)
Theorem version_href_parses (path : string) (path_info : PathInfo)
  (ver : string) :
  Network.make path = Return path_info ->
  clean ver ->
  (forall p, obj_absolute_path path_info = Some p ->
             startswith (posix_path_str (path_text p)) "/" = true) ->
  Network.make (version_href path_info ver)
  = Return {| package_name := package_name path_info;
              version_spec_str := ver;
              obj_absolute_path :=
                option_map
                  (fun p => PurePosixPathThatMightBeDir_init
                              (posix_path_str (path_text p)))
                  (obj_absolute_path path_info) |}.
Proof.
  intros Hmake Hver Hposix.
  destruct (make_returns_parsed path path_info Hmake) as (_ & Hgood & Heq).
  destruct (parsed_names_clean path Hgood) as [Hname _].
  rewrite <- Heq in Hname. clear Heq Hgood Hmake.
  unfold version_href.
  destruct (obj_absolute_path path_info) as [p|].
  - specialize (Hposix p eq_refl).
    rewrite make_composed; [|assumption|assumption|right; exact Hposix].
    cbn [option_map].
    destruct (startswith_inv _ _ Hposix) as [r Hr]. rewrite Hr. reflexivity.
  - rewrite make_composed;
      [reflexivity | assumption | assumption | left; reflexivity].
Qed.

End VersionLinks.

Section VerToTags.
Import VersTagsTable Behaviour.

Lemma dict_get_setitem {V} (d : dict V) (k k' : string) (v : V) :
  dict_get (dict_setitem d k v) k'
  = if String.eqb k k' then Some v else dict_get d k'.
Proof.
  induction d as [|[k0 v0] d IH]; simpl.
  - reflexivity.
  - destruct (String.eqb_spec k0 k) as [->|Hne]; simpl.
    + destruct (String.eqb k k'); reflexivity.
    + rewrite IH. destruct (String.eqb_spec k0 k') as [->|Hne'];
        [|reflexivity].
      destruct (String.eqb_spec k k'); [congruence | reflexivity].
Qed.

Lemma empty_ver_to_tags_from (vals : list string) (d0 : dict (list string))
  (v : string) :
  dict_get (fold_left (fun d v' => dict_setitem d v' []) vals d0) v
  = if tagged vals v then Some [] else dict_get d0 v.
Proof.
  revert d0. induction vals as [|v' vals IH]; intros d0; simpl;
    [reflexivity|].
  rewrite IH, dict_get_setitem. rewrite (String.eqb_sym v v').
  destruct (String.eqb v' v); simpl; destruct (tagged vals v); reflexivity.
Qed.

Lemma append_tags_spec (vals : list string) (items : list (string * string)) :
  forall (d : dict (list string)) (seen : string -> list string),
    (forall v, dict_get d v = if tagged vals v then Some (seen v) else None) ->
    (forall t v, In (t, v) items -> tagged vals v = true) ->
    exists d',
      append_tags items d = Return d' /\
      forall v, dict_get d' v
                = if tagged vals v then Some (seen v ++ tags_of items v)
                  else None.
Proof.
  induction items as [|[t v0] items IH]; intros d seen Hd Hitems.
  - exists d. split; [reflexivity|]. intros v. rewrite Hd.
    unfold tags_of. simpl. rewrite app_nil_r. reflexivity.
  - assert (Hv0 : tagged vals v0 = true)
      by (apply (Hitems t); left; reflexivity).
    simpl. unfold dict_getitem. rewrite Hd, Hv0. simpl.
    destruct (IH (dict_setitem d v0 (seen v0 ++ [t]))
                (fun v => if String.eqb v0 v then seen v ++ [t] else seen v))
      as (d' & Hrun & Hd').
    + intros v. rewrite dict_get_setitem.
      destruct (String.eqb_spec v0 v) as [<-|Hne].
      * rewrite Hv0. reflexivity.
      * apply Hd.
    + intros t' v Hin. apply (Hitems t'). right. exact Hin.
    + exists d'. split; [exact Hrun|]. intros v. rewrite Hd'.
      destruct (tagged vals v); [|reflexivity]. f_equal.
      unfold tags_of. simpl.
      destruct (String.eqb_spec v0 v) as [<-|Hne]; simpl.
      * rewrite <- app_assoc. reflexivity.
      * reflexivity.
Qed.

Lemma tagged_values (tag_to_ver : dict string) (t v : string) :
  In (t, v) tag_to_ver -> tagged (dict_values tag_to_ver) v = true.
Proof.
  intros Hin. unfold tagged. apply existsb_exists. exists v.
  split; [|apply String.eqb_refl].
  change v with (snd (t, v)). apply in_map. exact Hin.
Qed.

Lemma tags_of_untagged (tag_to_ver : dict string) (v : string) :
  tagged (dict_values tag_to_ver) v = false -> tags_of tag_to_ver v = [].
Proof.
  unfold tagged, tags_of, dict_values.
  induction tag_to_ver as [|[t v'] d IH]; simpl; [reflexivity|].
  rewrite (String.eqb_sym v v').
  destruct (String.eqb v' v); simpl; [discriminate | exact IH].
Qed.

(** X10: the reversed mapping that [_vers_tags_table] builds is built
    without a [KeyError], and what it gives for a version, with the empty
    list as default, is the list of the tags that point at that version,
    in the order of the document; so a tag is shown beside a version
    exactly when the document maps the tag to it. *)
Theorem ver_to_tags_inverse (tag_to_ver : dict string) :
  exists d,
    ver_to_tags tag_to_ver = Return d /\
    (forall ver, dict_get_default d ver [] = tags_of tag_to_ver ver) /\
    (forall t ver, In t (dict_get_default d ver [])
                   <-> In (t, ver) tag_to_ver).
Proof.
  destruct (append_tags_spec (dict_values tag_to_ver) tag_to_ver
              (empty_ver_to_tags tag_to_ver) (fun _ => []))
    as (d & Hrun & Hd).
  - intros v. unfold empty_ver_to_tags. rewrite empty_ver_to_tags_from.
    reflexivity.
  - intros t v. apply tagged_values.
  - assert (Htags : forall ver,
               dict_get_default d ver [] = tags_of tag_to_ver ver).
    { intros ver. unfold dict_get_default. rewrite Hd.
      destruct (tagged (dict_values tag_to_ver) ver) eqn:Htagged;
        [reflexivity|].
      symmetry. apply tags_of_untagged. exact Htagged. }
    exists d. split; [exact Hrun|]. split; [exact Htags|].
    intros t ver. rewrite Htags. unfold tags_of.
    rewrite in_map_iff. split.
    + intros ([t' v'] & Heq & Hin). simpl in Heq. subst t'.
      apply filter_In in Hin. destruct Hin as [Hin Hv].
      simpl in Hv. apply String.eqb_eq in Hv. subst. exact Hin.
    + intros Hin. exists (t, ver). split; [reflexivity|].
      apply filter_In. split; [exact Hin|]. simpl. apply String.eqb_refl.
Qed.

End VerToTags.

Section SortVersions.
Import General NodeEcosys VersTagsTable Behaviour.

Lemma all_pairs {A} (P : A -> A -> Prop) (l : list A) :
  (forall x y, In x l -> In y l -> P x y) -> ForallOrdPairs P l.
Proof.
  induction l as [|a l IH]; intros Hall; constructor.
  - apply Forall_forall. intros y Hy. apply Hall; simpl; auto.
  - apply IH. intros x y Hx Hy. apply Hall; simpl; auto.
Qed.

(** Swapping the arguments and negating the result cancel out on an
    antisymmetric comparison. *)
Lemma reverse_cmp_antisymmetric {A} (cmp : A -> A -> outcome Z) (x y : A)
  (c : Z) :
  cmp x y = Return c -> cmp y x = Return (- c)%Z ->
  reverse_cmp cmp x y = Return c.
Proof.
  intros _ Hyx. unfold reverse_cmp. rewrite Hyx. simpl.
  rewrite Z.opp_involutive. reflexivity.
Qed.

Lemma insert_sorted_ext {A} (lt1 lt2 : A -> A -> outcome bool) (x : A)
  (l : list A) :
  (forall y, In y l -> lt1 y x = lt2 y x) ->
  insert_sorted lt1 x l = insert_sorted lt2 x l.
Proof.
  induction l as [|y l IH]; intros Hext; simpl; [reflexivity|].
  rewrite (Hext y) by (left; reflexivity).
  destruct (lt2 y x) as [[|]|e]; simpl; try reflexivity.
  rewrite IH by (intros z Hz; apply Hext; right; exact Hz). reflexivity.
Qed.

Lemma insert_sorted_In {A} (lt : A -> A -> outcome bool) (x : A)
  (l l' : list A) :
  insert_sorted lt x l = Return l' ->
  forall y, In y l' -> y = x \/ In y l.
Proof.
  revert l'. induction l as [|z l IH]; intros l'; simpl.
  - intros [= <-] y [<- | []]. left. reflexivity.
  - destruct (lt z x) as [[|]|e]; simpl; try discriminate.
    + destruct (insert_sorted lt x l) as [r|e]; simpl; [|discriminate].
      intros [= <-] y [<- | Hy]; [right; left; reflexivity|].
      destruct (IH r eq_refl y Hy); auto.
    + intros [= <-] y [<- | Hy]; [left; reflexivity | right; exact Hy].
Qed.

Lemma sorted_In {A} (lt : A -> A -> outcome bool) (l l' : list A) :
  sorted lt l = Return l' -> forall y, In y l' -> In y l.
Proof.
  revert l'. induction l as [|x l IH]; intros l'; simpl.
  - intros [= <-] y []. 
  - destruct (sorted lt l) as [r|e]; simpl; [|discriminate].
    intros Hins y Hy.
    destruct (insert_sorted_In lt x r l' Hins y Hy) as [-> | Hr];
      [left; reflexivity | right; eapply IH; eauto].
Qed.

Lemma sorted_ext {A} (lt1 lt2 : A -> A -> outcome bool) (l : list A) :
  (forall x y, In x l -> In y l -> lt1 x y = lt2 x y) ->
  sorted lt1 l = sorted lt2 l.
Proof.
  induction l as [|x l IH]; intros Hext; simpl; [reflexivity|].
  rewrite IH by (intros a b Ha Hb; apply Hext; right; assumption).
  destruct (sorted lt2 l) as [r|e] eqn:Hr; simpl; [|reflexivity].
  apply insert_sorted_ext. intros y Hy.
  apply Hext; [right; eapply sorted_In; eauto | left; reflexivity].
Qed.

Context `{NodeSemver}.

(** X9: on versions that [semver_cmp] compares antisymmetrically and in
    agreement with a transitive order, the sort of [_vers_tags_table]
    returns the versions rearranged from the lowest to the highest: the
    swap of the arguments and the negation in [reverse_cmp] cancel, and the
    sort is the one [semver_cmp] itself would give. *)
Theorem sort_versions_ascending (le : string -> string -> Prop)
  (versions : list string) :
  (forall x y z, le x y -> le y z -> le x z) ->
  compares (fun v1 v2 => semver_cmp v1 v2 false) le versions ->
  sort_versions versions
  = sorted (cmp_to_key (fun v1 v2 => semver_cmp v1 v2 false)) versions /\
  exists l', sort_versions versions = Return l' /\
             Permutation versions l' /\ StronglySorted le l'.
Proof.
  intros Htrans Hcmp. set (cmp := fun v1 v2 => semver_cmp v1 v2 false) in *.
  assert (Hsame : forall x y, In x versions -> In y versions ->
                    cmp_to_key (reverse_cmp cmp) x y = cmp_to_key cmp x y).
  { intros x y Hx Hy. destruct (Hcmp x y Hx Hy) as (c & Hxy & Hyx & _).
    unfold cmp_to_key.
    rewrite (reverse_cmp_antisymmetric cmp x y c Hxy Hyx), Hxy.
    reflexivity. }
  assert (Hplain : sort_versions versions
                   = sorted (cmp_to_key cmp) versions)
    by (apply sorted_ext; exact Hsame).
  split; [exact Hplain|]. rewrite Hplain.
  apply (sorted_spec (cmp_to_key cmp) le
           (fun x y => In x versions /\ In y versions) Htrans).
  - intros x y [Hx Hy]. unfold cmp_to_key.
    destruct (Hcmp y x Hy Hx) as (c & Hyx & Hxy & Hle). rewrite Hyx. simpl.
    destruct (Z.ltb_spec c 0) as [Hneg | Hpos].
    + left. split; [reflexivity|]. apply Hle. lia.
    + right. split; [reflexivity|].
      destruct (Hcmp x y Hx Hy) as (c' & Hxy' & _ & Hle').
      apply Hle'. rewrite Hxy in Hxy'. injection Hxy' as <-. lia.
  - apply all_pairs. auto.
Qed.

End SortVersions.

(** ** The cache folder *)

Section CacheFolder.
Import General TinyJsdelivr Behaviour.

Lemma ltb_irrefl (s : string) : String.ltb s s = false.
Proof.
  unfold String.ltb.
  destruct (String.compare s s) eqn:Hc; try reflexivity.
  pose proof (String.compare_antisym s s) as Ha. rewrite Hc in Ha.
  discriminate.
Qed.

Lemma ltb_asym (s1 s2 : string) :
  String.ltb s1 s2 = true -> String.ltb s2 s1 = false.
Proof.
  unfold String.ltb. rewrite (String.compare_antisym s1 s2).
  destruct (String.compare s2 s1); simpl; congruence.
Qed.

(** X5: [compare_size_entry] never returns 0.  On two pairs with the same
    name it raises [AssertionError]; on two pairs with different names it
    returns 1 or -1, and the opposite when the pairs are swapped. *)
Theorem compare_size_entry_antisymmetric (x y : N * string) :
  (snd x = snd y /\ compare_size_entry x y = Raise AssertionError) \/
  (snd x <> snd y /\
   exists c, compare_size_entry x y = Return c /\
             (c = 1 \/ c = -1)%Z /\
             compare_size_entry y x = Return (- c)%Z).
Proof.
  destruct x as [size1 entry1], y as [size2 entry2]. simpl.
  destruct (String.eqb_spec entry1 entry2) as [Heq | Hne].
  - left. split; [exact Heq|]. unfold compare_size_entry.
    subst. reflexivity.
  - right. split; [exact Hne|]. unfold compare_size_entry, str_lt.
    cbn beta iota.
    assert (Hne12 : String.eqb entry1 entry2 = false)
      by (apply String.eqb_neq; exact Hne).
    assert (Hne21 : String.eqb entry2 entry1 = false)
      by (apply String.eqb_neq; congruence).
    rewrite ?Hne12, ?Hne21. simpl.
    destruct (N.ltb_spec size1 size2) as [Hlt | Hge].
    + exists 1%Z. repeat split; auto.
      destruct (N.ltb_spec size2 size1); [lia | reflexivity].
    + destruct (N.ltb_spec size2 size1) as [Hgt | Hle].
      * exists (-1)%Z. repeat split; auto.
      * destruct (String.ltb entry1 entry2) eqn:H12.
        -- exists (-1)%Z. repeat split; auto.
           rewrite (ltb_asym _ _ H12). reflexivity.
        -- rewrite (ltb_total entry1 entry2 Hne H12).
           exists 1%Z. repeat split; auto.
Qed.

Lemma fold_right_add_app (a b : list N) :
  fold_right N.add 0%N (a ++ b)
  = (fold_right N.add 0 a + fold_right N.add 0 b)%N.
Proof. induction a as [|n a IH]; simpl; [reflexivity | rewrite IH; lia]. Qed.

(** X6: the size of an entry is the sum of the sizes of the regular files
    at any depth below it; directories add nothing of their own, and an
    empty directory weighs nothing. *)
Theorem get_entry_size_regular_files (e : entry) :
  get_entry_size e = fold_right N.add 0%N (regular_files e).
Proof.
  revert e. fix IH 1. intros [size | children].
  - simpl. lia.
  - simpl. unfold py_sum. rewrite py_sum_from. simpl.
    induction children as [|[name f] children IHchildren]; simpl.
    + reflexivity.
    + rewrite fold_right_add_app, <- IHchildren, <- (IH f). reflexivity.
Qed.

End CacheFolder.

(** ** Version resolution *)

Section ResolutionInvariants.
Import NodeEcosys TinyJsdelivr Spec Behaviour.
Context `{NodeSemver}.

Lemma list_filter_result {A} (test : A -> outcome bool) (l vers : list A) :
  list_filter test l = Return vers -> vers = filter (holds test) l.
Proof.
  revert vers. induction l as [|x l IH]; intros vers; simpl.
  - intros [= <-]. reflexivity.
  - unfold holds at 1. destruct (test x) as [b|e]; simpl; [|discriminate].
    destruct (list_filter test l) as [r|e]; simpl; [|discriminate].
    intros [= <-]. rewrite (IH r eq_refl). destruct b; reflexivity.
Qed.

Lemma filter_none {A} (l : list A) : [] = filter (fun _ => false) l.
Proof. induction l; simpl; auto. Qed.

Lemma filter_all {A} (l : list A) : l = filter (fun _ => true) l.
Proof. induction l; simpl; congruence. Qed.

(** X7: unless the specifier is the literal ["dist-tags"], a result that
    does not designate is the keys of [versions] with some of them left
    out: every version listed is published, and the order of the document
    is kept. *)
Theorem make_lists_published (R : ValidRegistryJson) (s : string)
  (fv : FeasibleVersionsList) :
  make s R = Return fv ->
  s <> "dist-tags" ->
  version_is_designated fv = false ->
  exists keep, fv_versions fv = filter keep (dict_keys (versions R)).
Proof.
  intros Hmake Hd Hlist.
  destruct (String.eqb_spec s "all") as [->|Ha].
  { injection Hmake as <-. exists (fun _ => true). apply filter_all. }
  destruct (is_valid_version s) eqn:Hv.
  - unfold make in Hmake.
    apply String.eqb_neq in Hd. apply String.eqb_neq in Ha.
    rewrite Hd, Ha, Hv in Hmake.
    destruct (dict_contains (versions R) s); simpl in Hmake;
      injection Hmake as <-; [discriminate|].
    exists (fun _ => false). apply filter_none.
  - rewrite make_not_exact in Hmake by assumption.
    unfold NodeVersionRange_init in Hmake.
    assert (Htag : forall fv', Return (dist_tag_lookup R s) = Return fv' ->
                     version_is_designated fv' = false ->
                     fv_versions fv' = []).
    { unfold dist_tag_lookup. intros fv' Heq Hl.
      destruct (dict_get (dist_tags R) s); injection Heq as <-;
        [discriminate | reflexivity]. }
    destruct (nodesemver_Range s false) as [r|e]; simpl in Hmake.
    + unfold contains in Hmake. simpl in Hmake.
      destruct (list_filter (fun ver => nodesemver_satisfies ver r)
                  (dict_keys (versions R))) as [vers|e] eqn:Hfilter;
        simpl in Hmake.
      * injection Hmake as <-. eexists. simpl.
        apply list_filter_result. exact Hfilter.
      * exists (fun _ => false). rewrite (Htag fv Hmake Hlist).
        apply filter_none.
    + exists (fun _ => false). rewrite (Htag fv Hmake Hlist).
      apply filter_none.
Qed.

(** X8: a result designates a version only in two ways: the specifier is a
    valid exact version and a key of [versions], and the version is the
    specifier itself; or the specifier is not a valid exact version and
    is a key of [dist-tags], and the version is the one the tag points
    at. *)
Theorem make_designates (R : ValidRegistryJson) (s : string)
  (fv : FeasibleVersionsList) :
  make s R = Return fv ->
  version_is_designated fv = true ->
  (is_valid_version s = true /\
   dict_contains (versions R) s = true /\ fv_versions fv = [s]) \/
  (is_valid_version s = false /\
   exists ver, dict_get (dist_tags R) s = Some ver /\ fv_versions fv = [ver]).
Proof.
  intros Hmake Hdes.
  destruct (String.eqb_spec s "dist-tags") as [->|Hd].
  { injection Hmake as <-. discriminate. }
  destruct (String.eqb_spec s "all") as [->|Ha].
  { injection Hmake as <-. discriminate. }
  destruct (is_valid_version s) eqn:Hv.
  - left. unfold make in Hmake.
    apply String.eqb_neq in Hd. apply String.eqb_neq in Ha.
    rewrite Hd, Ha, Hv in Hmake.
    destruct (dict_contains (versions R) s); simpl in Hmake;
      injection Hmake as <-; [auto | discriminate].
  - right. split; [reflexivity|].
    rewrite make_not_exact in Hmake by assumption.
    unfold NodeVersionRange_init in Hmake.
    assert (Htag : forall fv', Return (dist_tag_lookup R s) = Return fv' ->
                     version_is_designated fv' = true ->
                     exists ver, dict_get (dist_tags R) s = Some ver /\
                                 fv_versions fv' = [ver]).
    { unfold dist_tag_lookup. intros fv' Heq Hl.
      destruct (dict_get (dist_tags R) s) as [ver|]; injection Heq as <-;
        [eauto | discriminate]. }
    destruct (nodesemver_Range s false) as [r|e]; simpl in Hmake; [|eauto].
    unfold contains in Hmake. simpl in Hmake.
    destruct (list_filter (fun ver => nodesemver_satisfies ver r)
                (dict_keys (versions R))) as [vers|e];
      simpl in Hmake; [|eauto].
    injection Hmake as <-. discriminate.
Qed.

End ResolutionInvariants.

(** ** The tarball cache *)

Section TarballCacheBehaviour.
Import General NodeEcosys TinyJsdelivr Spec Behaviour.
Context `{Platform}.

(** The size check starts with the listing of the cache folder and puts
    nothing new into the cache. *)
Lemma report_cache_folder_size_trace (w w' : World) (r : outcome unit)
  (evs : list io_event) :
  report_cache_folder_size w = (r, w', evs) ->
  existsb is_size_check evs = true /\ existsb is_new_work evs = false.
Proof.
  unfold report_cache_folder_size, io_bind, io_read, io_lift, io_ret,
    logger_warning.
  destruct (cache_listing w) as [listing|e]; [|intros [= _ _ <-]; auto].
  destruct (cache_folder_report listing) as [[msg|]|e];
    intros [= _ _ <-]; auto.
Qed.

(** X12: when the tarball is not in the cache and the registry answers the
    download with an error status, the call raises [HTTPError] right after
    the request: nothing is written, nothing is extracted, the size check
    does not run, and the world is as the request left it. *)
Theorem download_failed_request (R : ValidRegistryJson) (v name : string)
  (record : _VersionValueJson) (r : http_response) (w w1 : World) :
  os_path_exists (tarball_path_of name) w = false ->
  dict_get (versions R) v = Some record ->
  requests_get (tarball (dist record)) w = (Return r, w1) ->
  (400 <= status_code r < 600)%Z ->
  download_and_unpack_tarball R v name w
  = (Raise (HTTPError (status_code r)), w1,
     [EvExists (tarball_path_of name) false;
      EvGet (tarball (dist record))]).
Proof.
  intros Habsent Hrecord Hget Hstatus.
  unfold download_and_unpack_tarball, io_bind, path_exists, io_lift, io_act,
    dict_getitem, raise_for_status.
  fold (tarball_path_of name). rewrite Habsent, Hrecord. cbn beta iota.
  cbn [negb]. cbn beta iota. rewrite Hget. cbn beta iota.
  replace ((400 <=? status_code r)%Z && (status_code r <? 600)%Z) with true
    by (symmetry; apply andb_true_iff; split;
        [apply Z.leb_le | apply Z.ltb_lt]; lia).
  reflexivity.
Qed.

(** X13: the size check runs only in a call that wrote a tarball or
    extracted a directory, and it runs in every such call that returns. *)
Theorem download_size_check (R : ValidRegistryJson) (v name : string)
  (w w' : World) (r : outcome unit) (evs : list io_event) :
  download_and_unpack_tarball R v name w = (r, w', evs) ->
  (existsb is_size_check evs = true -> existsb is_new_work evs = true) /\
  (r = Return tt -> existsb is_new_work evs = true ->
   existsb is_size_check evs = true).
Proof.
  unfold download_and_unpack_tarball, io_bind, path_exists, io_ret, io_act,
    io_lift.
  intros Hrun. cbn beta iota in Hrun.
  repeat (next_call Hrun); tidy_run Hrun;
    repeat match goal with
           | Hr : report_cache_folder_size _ = _ |- _ =>
               apply report_cache_folder_size_trace in Hr;
               destruct Hr as [? ?]
           end;
    (split; [intros Hcheck | intros Hreturn Hwork]);
    cbn [existsb is_size_check is_new_work orb app] in *;
    repeat match goal with
           | Hb : existsb _ _ = _ |- _ => rewrite Hb in *; clear Hb
           end;
    try discriminate; try reflexivity; try assumption;
    rewrite ?orb_true_r; auto.
Qed.

(** X14: once the tarball is in the cache the registry document is not
    consulted: the call does the same whatever the document and the
    version are, also for a version the document does not have. *)
Theorem download_ignores_registry (R R' : ValidRegistryJson)
  (v v' name : string) (w : World) :
  os_path_exists (tarball_path_of name) w = true ->
  download_and_unpack_tarball R v name w
  = download_and_unpack_tarball R' v' name w.
Proof.
  intros Hcached.
  unfold download_and_unpack_tarball, io_bind, path_exists.
  fold (tarball_path_of name). rewrite Hcached. reflexivity.
Qed.

End TarballCacheBehaviour.

(** ** The request handler *)

(** Case analysis on the innermost call the goal is waiting for. *)
Ltac next_call_goal :=
  match goal with
  | |- context [match ?x with _ => _ end] =>
      lazymatch x with
      | context [match _ with _ => _ end] => fail
      | _ => destruct x eqn:?
      end
  end;
  cbn beta iota.

Section HandlerBehaviour.
Import General NodeEcosys Network TinyJsdelivr Spec Behaviour Aux.
Context `{Platform} `{NodeSemver}.

Lemma not_favicon (thepath : string) :
  thepath <> "favicon.ico" ->
  String.eqb ("/" ++ thepath) "/favicon.ico" = false.
Proof.
  intros Hne. apply String.eqb_neq. intros Heq. injection Heq as Heq.
  contradiction.
Qed.

(** X15: a malformed request path is answered with status 400 and a plain
    text diagnostic before anything is asked of the registry or of the
    cache: the handler performs no input or output at all. *)
Theorem delivr_malformed (thepath : string) (w : World) :
  thepath <> "favicon.ico" ->
  malformed (name_and_version ("/" ++ thepath)) ->
  exists message,
    delivr thepath w
    = (Return (make_response_altered
                 (RequestNotValidText 400 "Bad Request" message) 400
                 (MimeStr CONTENT_TYPE_UTF_8_TEXT)), w, []).
Proof.
  intros Hicon Hbad.
  destruct (make_result ("/" ++ thepath) eq_refl)
    as [[_ [message Hraise]] | [Hgood _]]; [|contradiction].
  exists message. unfold delivr, handle_path.
  rewrite (not_favicon thepath Hicon).
  unfold io_bind at 1. unfold io_lift at 1. rewrite Hraise. reflexivity.
Qed.

(** X11: when the registry answers the request for the package document
    with status 404, the handler returns a plain text response of status
    404; with any other status from 400 to 599 it raises [HTTPError], which
    leaves the handler.  Either way the request to the registry is all that
    happens. *)
Theorem delivr_registry_error (thepath : string) (path_info : PathInfo)
  (r : http_response) (w w1 : World) :
  thepath <> "favicon.ico" ->
  Network.make ("/" ++ thepath) = Return path_info ->
  requests_get (NPM_REGISTRY_URL_BEGIN ++ "/" ++ package_name path_info) w
  = (Return r, w1) ->
  (status_code r = 404%Z ->
   delivr thepath w
   = (Return (make_response_altered
                (RequestNotValidText 404 "Not Found"
                   ("package " ++ package_name path_info ++ " not found"))
                404 (MimeStr CONTENT_TYPE_UTF_8_TEXT)),
      w1,
      [EvGet (NPM_REGISTRY_URL_BEGIN ++ "/" ++ package_name path_info)])) /\
  ((400 <= status_code r < 600)%Z -> status_code r <> 404%Z ->
   delivr thepath w
   = (Raise (HTTPError (status_code r)), w1,
      [EvGet (NPM_REGISTRY_URL_BEGIN ++ "/" ++ package_name path_info)])).
Proof.
  intros Hicon Hparse Hget.
  set (url := (NPM_REGISTRY_URL_BEGIN ++ "/" ++ package_name path_info)%string)
    in *.
  assert (Hregistry : get_registry_json (package_name path_info) w
            = (if (status_code r =? 404)%Z
               then raise_RequestNotValidError 404
                      ("package " ++ package_name path_info ++ " not found")
               else raise_for_status r ;;; response_json r,
               w1, [EvGet url])).
  { unfold get_registry_json. fold url.
    unfold io_bind at 1. unfold io_act at 1. rewrite Hget. cbn beta iota.
    destruct (status_code r =? 404)%Z; [reflexivity|].
    unfold io_bind, io_lift.
    destruct (raise_for_status r) as [[]|e]; [|reflexivity].
    cbn [bind app]. destruct (response_json r); reflexivity. }
  assert (Hhandle : forall e,
            (if (status_code r =? 404)%Z
             then raise_RequestNotValidError 404
                    ("package " ++ package_name path_info ++ " not found")
             else raise_for_status r ;;; response_json r) = Raise e ->
            handle_path ("/" ++ thepath) w = (Raise e, w1, [EvGet url])).
  { intros e He. unfold handle_path. rewrite (not_favicon thepath Hicon).
    unfold io_bind at 1. unfold io_lift at 1. rewrite Hparse.
    unfold io_bind at 1. rewrite Hregistry, He. reflexivity. }
  split.
  - intros H404. unfold delivr. rewrite (Hhandle (RequestNotValidError 404
      "Not Found" ("package " ++ package_name path_info ++ " not found")));
      [reflexivity|].
    rewrite H404. reflexivity.
  - intros Hrange Hnot. unfold delivr.
    rewrite (Hhandle (HTTPError (status_code r))); [reflexivity|].
    apply Z.eqb_neq in Hnot. rewrite Hnot. unfold raise_for_status.
    replace ((400 <=? status_code r)%Z && (status_code r <? 600)%Z)
      with true
      by (symmetry; apply andb_true_iff; split;
          [apply Z.leb_le | apply Z.ltb_lt]; lia).
    reflexivity.
Qed.


Lemma give_file_or_dir_run (path_info : PathInfo) (local_name : string)
  (w : World) :
  snd (fst (give_file_or_dir path_info local_name w)) = w /\
  reads_guarded (snd (give_file_or_dir path_info local_name w)) = true.
Proof.
  unfold give_file_or_dir, give_entry_file, give_directory, give_file,
    io_bind, path_exists, io_ret, io_read, io_lift.
  repeat next_call_goal; cbn [fst snd app reads_guarded];
    rewrite ?String.eqb_refl;
    repeat match goal with
           | Hb : negb _ = true |- _ => apply negb_true_iff in Hb
           | Hb : negb _ = false |- _ => apply negb_false_iff in Hb
           end;
    repeat match goal with
           | Hb : os_path_exists _ _ = _ |- _ => rewrite Hb; clear Hb
           end;
    auto.
Qed.

(** X18: serving a file, a directory or an entry file leaves the world as
    it is, and every file it reads and every directory it lists is one
    that the existence check just before found. *)
Theorem give_file_or_dir_reads (path_info : PathInfo) (local_name : string)
  (w w' : World) (r : outcome Response) (evs : list io_event) :
  give_file_or_dir path_info local_name w = (r, w', evs) ->
  w' = w /\ reads_guarded evs = true.
Proof.
  intros Hrun.
  pose proof (give_file_or_dir_run path_info local_name w) as Hfacts.
  rewrite Hrun in Hfacts. exact Hfacts.
Qed.

(** X19: with a [package.json] in place, the entry file is the one named
    by the first string among the four candidates.  When there is no such
    string, or when it is the empty string, whatever the later candidates
    are, the request is refused with status 404 after the [package.json]
    was read; when the named file exists, its bytes are returned with
    status 200. *)
Theorem give_entry_file_serves (path_info : PathInfo) (local_name : string)
  (w : World) (package_json : json) :
  os_path_exists (package_file_path local_name "package.json") w = true ->
  json_load (package_file_path local_name "package.json") w
  = Return package_json ->
  (first_string (entry_file_candidates package_json) = None \/
   first_string (entry_file_candidates package_json) = Some EmptyString ->
   give_entry_file path_info local_name w
   = (Raise (RequestNotValidError 404 "Not Found"
               "Error: No entry file path found in package.json"),
      w,
      [EvExists (package_file_path local_name "package.json") true;
       EvRead (package_file_path local_name "package.json")])) /\
  (forall entry_path content,
      first_string (entry_file_candidates package_json) = Some entry_path ->
      entry_path <> EmptyString ->
      os_path_exists (package_file_path local_name entry_path) w = true ->
      read_bytes (package_file_path local_name entry_path) w
      = Return content ->
      give_entry_file path_info local_name w
      = (Return (make_response_altered (Bytes content) 200
                   (MimeTuple
                      (guess_file_type
                         (package_file_path local_name entry_path)))),
         w,
         [EvExists (package_file_path local_name "package.json") true;
          EvRead (package_file_path local_name "package.json");
          EvExists (package_file_path local_name entry_path) true;
          EvRead (package_file_path local_name entry_path)])).
Proof.
  intros Hexists Hload.
  assert (Hfind : find_entry_file_from_package_json package_json
                  = Return (first_string
                              (entry_file_candidates package_json))).
  { unfold find_entry_file_from_package_json, entry_file_candidates.
    change (try_except_pass (lookup_block package_json ["jsdelivr"])
             (try_except_pass
                (lookup_block package_json ["exports"; "."; "default"])
                (try_except_pass
                   (lookup_block package_json ["exports"; "."])
                   (try_except_pass (lookup_block package_json ["main"])
                      (Return None))))
            = Return (first_string
                        [field_path package_json ["jsdelivr"];
                         field_path package_json
                           ["exports"; "."; "default"];
                         field_path package_json ["exports"; "."];
                         field_path package_json ["main"]])).
    repeat (apply try_block_candidate). reflexivity. }
  split.
  - intros Hnone.
    unfold give_entry_file, io_bind, path_exists, io_read, io_lift.
    unfold package_file_path in *. cbn [append] in *.
    rewrite Hexists. cbn [negb]. cbn beta iota.
    rewrite Hload, Hfind. cbn beta iota.
    destruct Hnone as [-> | ->]; reflexivity.
  - intros entry_path content Hfirst Hnonempty Hentry Hread.
    unfold give_entry_file, io_bind, path_exists, io_read, io_lift, io_ret.
    unfold package_file_path in *. cbn [append] in *.
    rewrite Hexists. cbn [negb]. cbn beta iota.
    rewrite Hload, Hfind, Hfirst. cbn beta iota.
    apply str_is_empty_false in Hnonempty. rewrite Hnonempty.
    cbn beta iota. rewrite Hentry. cbn [negb]. cbn beta iota.
    rewrite Hread. reflexivity.
Qed.

End HandlerBehaviour.

(** ** The statuses of the responses *)

Section SortRaises.
Context {A : Type} (lt : A -> A -> outcome bool) (P : exn -> Prop).
Hypothesis lt_raises : forall x y e, lt x y = Raise e -> P e.

Lemma insert_sorted_raises (x : A) (l : list A) (e : exn) :
  insert_sorted lt x l = Raise e -> P e.
Proof.
  induction l as [|y l IH]; simpl; [discriminate|].
  destruct (lt y x) as [[|]|e'] eqn:Hlt; simpl.
  - destruct (insert_sorted lt x l); simpl; [discriminate|].
    intros [= <-]. apply IH. reflexivity.
  - discriminate.
  - intros [= <-]. eapply lt_raises. exact Hlt.
Qed.

Lemma sorted_raises (l : list A) (e : exn) : sorted lt l = Raise e -> P e.
Proof.
  induction l as [|x l IH]; simpl; [discriminate|].
  destruct (sorted lt l) as [r|e']; simpl.
  - apply insert_sorted_raises.
  - intros [= <-]. apply IH. reflexivity.
Qed.

End SortRaises.

Section Statuses.
Import General NodeEcosys Network TinyJsdelivr Spec Behaviour.
Context `{Platform} `{NodeSemver}.

(** What the laws of the world say of the calls that raised. *)
Ltac use_foreign_laws :=
  repeat match goal with
         | Hop : os_listdir ?p ?w = Raise _ |- _ =>
             let Hf := fresh "Hforeign" in
             pose proof (os_listdir_foreign p w) as Hf;
             rewrite Hop in Hf; clear Hop
         | Hop : cache_listing ?w = Raise _ |- _ =>
             let Hf := fresh "Hforeign" in
             pose proof (cache_listing_foreign w) as Hf;
             rewrite Hop in Hf; clear Hop
         | Hop : read_bytes ?p ?w = Raise _ |- _ =>
             let Hf := fresh "Hforeign" in
             pose proof (read_bytes_foreign p w) as Hf;
             rewrite Hop in Hf; clear Hop
         | Hop : json_load ?p ?w = Raise _ |- _ =>
             let Hf := fresh "Hforeign" in
             pose proof (json_load_foreign p w) as Hf;
             rewrite Hop in Hf; clear Hop
         | Hop : response_json ?r = Raise _ |- _ =>
             let Hf := fresh "Hforeign" in
             pose proof (response_json_foreign r) as Hf;
             rewrite Hop in Hf; clear Hop
         | Hop : write_bytes ?p ?d ?w = (Raise _, _) |- _ =>
             let Hf := fresh "Hforeign" in
             pose proof (write_bytes_foreign p d w) as Hf;
             rewrite Hop in Hf; clear Hop
         | Hop : tar_extractall ?t ?d ?w = (Raise _, _) |- _ =>
             let Hf := fresh "Hforeign" in
             pose proof (tar_extractall_foreign t d w) as Hf;
             rewrite Hop in Hf; clear Hop
         | Hop : requests_get ?u ?w = (Raise _, _) |- _ =>
             let Hf := fresh "Hforeign" in
             pose proof (requests_get_foreign u w) as Hf;
             rewrite Hop in Hf; clear Hop
         end.

Lemma network_make_expected (path : string) (e : exn) :
  Network.make path = Raise e ->
  (exists message, e = RequestNotValidError 400 "Bad Request" message) \/
  foreign e.
Proof.
  intros Hraise. destruct (startswith path "/") eqn:Hstart.
  - destruct (make_result path Hstart)
      as [[_ [message Hmake]] | [_ Hmake]]; [|congruence].
    left. exists message. congruence.
  - unfold Network.make in Hraise. rewrite Hstart in Hraise.
    injection Hraise as <-. right. exact I.
Qed.

Lemma find_entry_file_returns (package_json : json) :
  exists r, find_entry_file_from_package_json package_json = Return r.
Proof.
  unfold find_entry_file_from_package_json, try_except_pass.
  repeat match goal with
         | |- context [match ?x with _ => _ end] =>
             lazymatch x with
             | context [match _ with _ => _ end] => fail
             | _ => destruct x
             end
         end; eauto.
Qed.

Lemma cache_folder_report_raises (listing : list (string * entry))
  (e : exn) :
  cache_folder_report listing = Raise e -> foreign e.
Proof.
  unfold cache_folder_report, nsmallest.
  destruct (_ <? _)%N; [discriminate|].
  destruct (sorted _ _) as [l|e'] eqn:Hsorted; simpl; [discriminate|].
  intros [= <-].
  eapply (sorted_raises (cmp_to_key compare_size_entry) foreign);
    [|exact Hsorted].
  intros [size1 entry1] [size2 entry2] e0.
  unfold cmp_to_key, compare_size_entry, py_assert.
  destruct (negb _); simpl; [|intros [= <-]; exact I].
  repeat match goal with
         | |- context [if ?b then _ else _] => destruct b; simpl
         end; try discriminate; intros [= <-]; exact I.
Qed.

Lemma raise_404 {A} (message : string) :
  @raise_RequestNotValidError A 404 message
  = Raise (RequestNotValidError 404 "Not Found" message).
Proof. reflexivity. Qed.

Lemma foreign_expected (e : exn) : foreign e -> expected_outcome (Raise e).
Proof. destruct e; simpl; tauto. Qed.

Context `{!ForeignErrors}.

Lemma report_raises_foreign (w : World) :
  raises_foreign (fst (fst (report_cache_folder_size w))).
Proof.
  unfold report_cache_folder_size, io_bind, io_read, io_lift, io_ret,
    logger_warning.
  destruct (cache_listing w) as [listing|e] eqn:Hlisting; cbn beta iota.
  - destruct (cache_folder_report listing) as [[msg|]|e] eqn:Hreport;
      cbn; auto.
    eapply cache_folder_report_raises. exact Hreport.
  - use_foreign_laws. exact Hforeign.
Qed.

Lemma download_raises_foreign (R : ValidRegistryJson) (v name : string)
  (w : World) :
  raises_foreign (fst (fst (download_and_unpack_tarball R v name w))).
Proof.
  unfold download_and_unpack_tarball, io_bind, path_exists, io_ret, io_act,
    io_lift, dict_getitem, raise_for_status.
  repeat next_call_goal;
    repeat match goal with
           | Hr : report_cache_folder_size ?w0 = _ |- _ =>
               let Hf := fresh "Hreport" in
               pose proof (report_raises_foreign w0) as Hf;
               rewrite Hr in Hf; clear Hr
           end;
    use_foreign_laws; cbn [fst raises_foreign foreign] in *; auto.
Qed.

Lemma give_file_or_dir_expected (path_info : PathInfo) (local_name : string)
  (w : World) :
  expected_outcome (fst (fst (give_file_or_dir path_info local_name w))).
Proof.
  unfold give_file_or_dir, give_entry_file, give_directory, give_file,
    io_bind, path_exists, io_ret, io_read, io_lift.
  repeat next_call_goal; rewrite ?raise_404; cbn [fst];
    try (apply foreign_expected; use_foreign_laws; assumption);
    try (cbn; auto; fail).
  all: match goal with
       | Hfind : find_entry_file_from_package_json ?pj = Raise _ |- _ =>
           destruct (find_entry_file_returns pj) as [r Hr]; congruence
       end.
Qed.

Lemma get_registry_json_expected (package_name : string) (w : World) :
  raises_expected (fst (fst (get_registry_json package_name w))).
Proof.
  unfold get_registry_json, io_bind, io_act, io_lift, raise_for_status.
  repeat next_call_goal; rewrite ?raise_404; cbn [fst raises_expected];
    try (apply foreign_expected; use_foreign_laws; assumption);
    try (cbn; auto; fail).
  destruct (response_json a) eqn:Hjson; cbn [raises_expected];
    [exact I | apply foreign_expected; use_foreign_laws; assumption].
Qed.

(** How [handle_path] may end. *)
Lemma handle_path_expected (abs_path : string) (w : World) :
  expected_outcome (fst (fst (handle_path abs_path w))).
Proof.
  unfold handle_path.
  destruct (String.eqb abs_path "/favicon.ico").
  { unfold io_bind, path_exists, io_raise, io_read, io_ret.
    repeat next_call_goal; cbn [fst];
      try (apply foreign_expected; use_foreign_laws; assumption);
      cbn; auto. }
  unfold io_bind at 1. unfold io_lift at 1.
  destruct (Network.make abs_path) as [path_info|e] eqn:Hparse;
    cbn beta iota.
  2:{ cbn [fst].
      destruct (network_make_expected abs_path e Hparse) as [[m ->] | Hf];
        [cbn; auto | apply foreign_expected; exact Hf]. }
  unfold io_bind at 1.
  pose proof (get_registry_json_expected (package_name path_info) w)
    as Hregistry.
  destruct (get_registry_json (package_name path_info) w)
    as [[[R|e] w1] evs1]; cbn beta iota; [|exact Hregistry].
  clear Hregistry.
  unfold io_bind at 1. unfold io_lift at 1.
  destruct (make_cases R (version_spec_str path_info)) as (fv & -> & _).
  cbn beta iota.
  destruct (length (fv_versions fv) =? 0)%nat; [cbn; auto|].
  destruct (negb (version_is_designated fv)); [cbn; auto|].
  unfold io_bind at 1. unfold io_lift at 1.
  destruct (py_assert _) as [[]|e]eqn:Hassert; cbn beta iota.
  2:{ cbn [fst]. unfold py_assert in Hassert.
      destruct (_ =? _)%nat; [discriminate|]. injection Hassert as <-.
      exact I. }
  unfold io_bind at 1. unfold io_lift at 1.
  destruct (list_getitem (fv_versions fv) 0) as [exact_version|e]
    eqn:Hitem; cbn beta iota.
  2:{ cbn [fst]. unfold list_getitem in Hitem.
      destruct (nth_error _ _); [discriminate|]. injection Hitem as <-.
      exact I. }
  unfold io_bind at 1.
  pose proof (download_raises_foreign R exact_version
                (package_name path_info ++ "-" ++ exact_version) w1)
    as Hdownload.
  destruct (download_and_unpack_tarball R exact_version
              (package_name path_info ++ "-" ++ exact_version) w1)
    as [[[[]|e] w2] evs2]; cbn beta iota.
  - pose proof (give_file_or_dir_expected path_info
                  (package_name path_info ++ "-" ++ exact_version) w2)
      as Hgive.
    destruct (give_file_or_dir path_info
                (package_name path_info ++ "-" ++ exact_version) w2)
      as [[r w3] evs3]. exact Hgive.
  - apply foreign_expected. exact Hdownload.
Qed.

(** X17: every response that [delivr] returns has status 200, 400 or
    404. *)
Theorem delivr_status (thepath : string) (w w' : World)
  (response : Response) (evs : list io_event) :
  delivr thepath w = (Return response, w', evs) ->
  response_status response = 200%Z \/
  response_status response = 400%Z \/
  response_status response = 404%Z.
Proof.
  unfold delivr.
  pose proof (handle_path_expected ("/" ++ thepath) w) as Hexpected.
  destruct (handle_path ("/" ++ thepath) w) as [[[r|e] w1] evs1].
  - intros [= <- _ _]. cbn in Hexpected. tauto.
  - destruct e; try discriminate.
    intros [= <- _ _]. cbn in Hexpected |- *. tauto.
Qed.

End Statuses.

(* ================================================================== *)
(** * The further properties at concrete inputs *)
(* ================================================================== *)

Section MoreInstances.
Import General NodeEcosys Network TinyJsdelivr VersTagsTable Spec Behaviour.
Import SimpleSemver MemoryPlatform Examples MoreExamples.

Lemma make_names_clean_witness :
  clean "lodash" /\ clean ">=1.0.0".
Proof.
  exact (make_names_clean "/lodash@>=1.0.0/lib/" request_lib eq_refl).
Defined.

Lemma make_reconstructs_witness :
  exists remainder,
    (("/lodash@>=1.0.0/lib/" = "/" ++ "lodash" ++ remainder /\
      ">=1.0.0" = "latest") \/
     "/lodash@>=1.0.0/lib/"
     = "/" ++ "lodash" ++ "@" ++ ">=1.0.0" ++ remainder)%string /\
    match obj_absolute_path request_lib with
    | None => remainder = EmptyString
    | Some p => startswith remainder "/" = true /\
                is_dir p = endswith remainder "/" /\
                is_dir p = endswith "/lodash@>=1.0.0/lib/" "/"
    end.
Proof.
  exact (make_reconstructs "/lodash@>=1.0.0/lib/" request_lib eq_refl).
Defined.

Lemma version_href_parses_witness :
  Network.make (@version_href platform request_lib "1.5.0")
  = Return {| package_name := "lodash";
              version_spec_str := "1.5.0";
              obj_absolute_path :=
                Some {| path_text := "/lib/"; _is_dir := true |} |}.
Proof.
  apply (@version_href_parses platform "/lodash@>=1.0.0/lib/" request_lib
           "1.5.0" eq_refl).
  - repeat split. discriminate.
  - intros p [= <-]. reflexivity.
Defined.

Lemma make_lists_published_witness :
  exists keep,
    ["1.0.0"; "1.5.0"]
    = filter keep ["0.9.0"; "1.0.0"; "1.5.0"; "2.0.0"].
Proof.
  apply (@make_lists_published simple_semver registry ">=1.0.0 <2.0.0"
           (listing ["1.0.0"; "1.5.0"]));
    [reflexivity | discriminate | reflexivity].
Defined.

Lemma make_designates_witness :
  (@is_valid_version simple_semver "latest" = true /\
   dict_contains (versions registry) "latest" = true /\
   ["1.5.0"] = ["latest"]) \/
  (@is_valid_version simple_semver "latest" = false /\
   exists ver, dict_get (dist_tags registry) "latest" = Some ver /\
               ["1.5.0"] = [ver]).
Proof.
  apply (@make_designates simple_semver registry "latest"
           (designated "1.5.0")); reflexivity.
Defined.

Lemma sort_versions_ascending_witness :
  @sort_versions simple_semver ["1.5.0"; "2.0.0"; "0.9.0"; "1.0.0"]
  = sorted (cmp_to_key (fun v1 v2 => @semver_cmp simple_semver v1 v2 false))
      ["1.5.0"; "2.0.0"; "0.9.0"; "1.0.0"] /\
  exists l',
    @sort_versions simple_semver ["1.5.0"; "2.0.0"; "0.9.0"; "1.0.0"]
    = Return l' /\
    Permutation ["1.5.0"; "2.0.0"; "0.9.0"; "1.0.0"] l' /\
    StronglySorted precedence_le l'.
Proof.
  apply (@sort_versions_ascending simple_semver precedence_le).
  - unfold precedence_le. intros x y z Hxy Hyz. lia.
  - intros x y Hx Hy. simpl in Hx, Hy.
    repeat (destruct Hx as [<- | Hx]; [|]);
      try contradiction;
      repeat (destruct Hy as [<- | Hy]; [|]);
      try contradiction;
      eexists; (split; [reflexivity|]); (split; [reflexivity|]);
      unfold precedence_le;
      repeat match goal with
             | |- context [precedence_rank ?s] =>
                 let v := eval vm_compute in (precedence_rank s) in
                 change (precedence_rank s) with v
             end;
      intros Hc; apply Z.leb_le in Hc; vm_compute in Hc;
      first [discriminate | lia].
Defined.

(** The run behind the witness above: the lowest version comes first. *)
Example sort_versions_run :
  @sort_versions simple_semver ["1.5.0"; "2.0.0"; "0.9.0"; "1.0.0"]
  = Return ["0.9.0"; "1.0.0"; "1.5.0"; "2.0.0"].
Proof. reflexivity. Qed.

(** The in-memory world raises [OSError] and nothing else. *)
Lemma memory_platform_foreign (served : ValidRegistryJson) :
  @ForeignErrors (memory_platform served).
Proof.
  constructor; simpl; intros; try exact I;
    repeat match goal with
           | |- context [if ?b then _ else _] => destruct b
           end; exact I.
Qed.

Lemma delivr_registry_error_witness :
  @delivr (answering_platform 404) simple_semver "pkg@1.0.0" empty_memory
  = (Return (make_response_altered
               (RequestNotValidText 404 "Not Found" "package pkg not found")
               404 (MimeStr CONTENT_TYPE_UTF_8_TEXT)),
     empty_memory, [EvGet "https://registry.npmjs.org/pkg"]) /\
  @delivr (answering_platform 503) simple_semver "pkg@1.0.0" empty_memory
  = (Raise (HTTPError 503), empty_memory,
     [EvGet "https://registry.npmjs.org/pkg"]).
Proof.
  split.
  - apply (proj1 (@delivr_registry_error (answering_platform 404)
                    simple_semver "pkg@1.0.0"
                    {| package_name := "pkg";
                       version_spec_str := "1.0.0";
                       obj_absolute_path := None |}
                    {| status_code := 404; content := [] |}
                    empty_memory empty_memory
                    ltac:(discriminate) eq_refl eq_refl)).
    reflexivity.
  - apply (proj2 (@delivr_registry_error (answering_platform 503)
                    simple_semver "pkg@1.0.0"
                    {| package_name := "pkg";
                       version_spec_str := "1.0.0";
                       obj_absolute_path := None |}
                    {| status_code := 503; content := [] |}
                    empty_memory empty_memory
                    ltac:(discriminate) eq_refl eq_refl)).
    + simpl. lia.
    + discriminate.
Defined.

Lemma download_failed_request_witness :
  @download_and_unpack_tarball (answering_platform 503) registry "1.0.0"
    "pkg-1.0.0" empty_memory
  = (Raise (HTTPError 503), empty_memory,
     [EvExists "./tiny_jsdelivr_cache/pkg-1.0.0.tgz" false;
      EvGet "https://registry.npmjs.org/pkg/-/pkg-1.0.0.tgz"]).
Proof.
  apply (@download_failed_request (answering_platform 503) registry "1.0.0"
           "pkg-1.0.0"
           (published "https://registry.npmjs.org/pkg/-/pkg-1.0.0.tgz")
           {| status_code := 503; content := [] |}
           empty_memory empty_memory eq_refl eq_refl eq_refl).
  simpl. lia.
Defined.

Lemma download_size_check_witness :
  let evs :=
    [EvExists "./tiny_jsdelivr_cache/pkg-1.0.0.tgz" false;
     EvGet "https://registry.npmjs.org/pkg/-/pkg-1.0.0.tgz";
     EvWrite "./tiny_jsdelivr_cache/pkg-1.0.0.tgz";
     EvExists "./tiny_jsdelivr_cache/pkg-1.0.0" false;
     EvExtract "./tiny_jsdelivr_cache/pkg-1.0.0.tgz"
       "./tiny_jsdelivr_cache/pkg-1.0.0";
     EvListCache] in
  (existsb is_size_check evs = true -> existsb is_new_work evs = true) /\
  (Return tt = Return tt -> existsb is_new_work evs = true ->
   existsb is_size_check evs = true).
Proof.
  exact (@download_size_check platform registry "1.0.0" "pkg-1.0.0"
           empty_memory _ _ _ eq_refl).
Defined.

Lemma download_ignores_registry_witness :
  @download_and_unpack_tarball platform registry "1.0.0" "pkg-1.0.0"
    memory_cached
  = @download_and_unpack_tarball platform
      {| dist_tags := []; versions := [] |} "9.9.9" "pkg-1.0.0"
      memory_cached.
Proof.
  exact (@download_ignores_registry platform registry
           {| dist_tags := []; versions := [] |} "1.0.0" "9.9.9"
           "pkg-1.0.0" memory_cached eq_refl).
Defined.

Lemma delivr_malformed_witness :
  exists message,
    @delivr platform simple_semver "left@@right" empty_memory
    = (Return (make_response_altered
                 (RequestNotValidText 400 "Bad Request" message) 400
                 (MimeStr CONTENT_TYPE_UTF_8_TEXT)), empty_memory, []).
Proof.
  apply (@delivr_malformed platform simple_semver "left@@right"
           empty_memory).
  - discriminate.
  - right. right. simpl. lia.
Defined.


Lemma delivr_status_witness :
  (400 = 200 \/ 400 = 400 \/ 400 = 404)%Z.
Proof.
  exact (@delivr_status platform simple_semver
           (memory_platform_foreign registry) "pkg@7.0.0" empty_memory
           empty_memory
           (make_response_altered
              (Html (TinyHtmls.all_versions_page registry
                       {| package_name := "pkg";
                          version_spec_str := "7.0.0";
                          obj_absolute_path := None |}))
              400 (MimeStr CONTENT_TYPE_UTF_8_HTML))
           [EvGet "https://registry.npmjs.org/pkg"] eq_refl).
Defined.

Lemma give_file_or_dir_reads_witness :
  memory_cached = memory_cached /\
  reads_guarded
    [EvExists "./tiny_jsdelivr_cache/pkg-1.0.0/package/package.json" true;
     EvRead "./tiny_jsdelivr_cache/pkg-1.0.0/package/package.json"]
  = true.
Proof.
  exact (@give_file_or_dir_reads platform
           {| package_name := "pkg";
              version_spec_str := "1.0.0";
              obj_absolute_path := None |}
           "pkg-1.0.0" memory_cached _ _ _ eq_refl).
Defined.

Lemma give_entry_file_serves_witness :
  @give_entry_file platform
    {| package_name := "pkg";
       version_spec_str := "1.0.0";
       obj_absolute_path := None |}
    "pkg-1.0.0" memory_cached
  = (Raise (RequestNotValidError 404 "Not Found"
              "Error: No entry file path found in package.json"),
     memory_cached,
     [EvExists (package_file_path "pkg-1.0.0" "package.json") true;
      EvRead (package_file_path "pkg-1.0.0" "package.json")]).
Proof.
  apply (proj1 (@give_entry_file_serves platform
                  {| package_name := "pkg";
                     version_spec_str := "1.0.0";
                     obj_absolute_path := None |}
                  "pkg-1.0.0" memory_cached (JObject []) eq_refl eq_refl)).
  left. reflexivity.
Defined.

End MoreInstances.
